(** * git-hook: registry, installer and dispatcher of chained git hooks

    A shallow embedding of [git-hook.go].  The program is a sequence of
    calls into the Go standard library over the file system, so the
    development has three layers:

    - the pure helpers of the standard library that the program calls
      ([strings], [path/filepath], [bufio], [fmt]), as functions on byte
      strings;
    - a small file system with the [os] calls the program uses, as
      actions of a state-and-error monad over a [World];
    - the functions of [git-hook.go] themselves, one definition each,
      written in that monad in the order of the source.

    [net/url], [net/http] and the child processes are not part of the
    program: they are the fields of the class [Env], over which the
    program and its properties are stated. *)

From Stdlib Require Import String Ascii List Arith NArith Lia DecimalString DecimalNat.
From stdpp Require Import gmap strings list fin_maps sorting.

Local Open Scope string_scope.
Local Open Scope list_scope.

(** ** Byte strings

    A Go [string] is a sequence of bytes: [string] of the standard
    library, whose characters are the 256 bytes. *)

Module GoStrings.

(** [strings.HasPrefix(s, prefix)]. *)
Definition HasPrefix (s pre : string) : bool := String.prefix pre s.

Definition byte (n : nat) : ascii := ascii_of_nat n.
Definition code (a : ascii) : nat := nat_of_ascii a.

(** [unicode.IsSpace] on the runes that take one byte: tab, line feed,
    vertical tab, form feed, carriage return and space. *)
Definition space1 (a : ascii) : bool :=
  let n := code a in (((9 <=? n) && (n <=? 13)) || (n =? 32))%nat.

(** The white space runes of two bytes in UTF-8: U+0085 and U+00A0. *)
Definition space2 (a b : ascii) : bool :=
  ((code a =? 194) && ((code b =? 133) || (code b =? 160)))%nat.

(** The white space runes of three bytes: U+1680, U+2000 to U+200A,
    U+2028, U+2029, U+202F, U+205F and U+3000. *)
Definition space3 (a b c : ascii) : bool :=
  let '(x, y, z) := (code a, code b, code c) in
  (((x =? 225) && (y =? 154) && (z =? 128))
   || ((x =? 226) && (y =? 128)
       && (((128 <=? z) && (z <=? 138)) || (z =? 168) || (z =? 169) || (z =? 175)))
   || ((x =? 226) && (y =? 129) && (z =? 159))
   || ((x =? 227) && (y =? 128) && (z =? 128)))%nat.

(** Leading white space runes removed ([strings.TrimLeftFunc] with
    [unicode.IsSpace]). *)
Fixpoint trimLeft (s : string) : string :=
  match s with
  | EmptyString => EmptyString
  | String a s1 =>
      if space1 a then trimLeft s1 else
      match s1 with
      | EmptyString => s
      | String b s2 =>
          if space2 a b then trimLeft s2 else
          match s2 with
          | EmptyString => s
          | String c s3 => if space3 a b c then trimLeft s3 else s
          end
      end
  end.

(** The same from the end, on the reversed bytes: the last rune of a
    string is a white space rune exactly when the string ends with its
    encoding. *)
Fixpoint trimLeftRev (s : string) : string :=
  match s with
  | EmptyString => EmptyString
  | String c s1 =>
      if space1 c then trimLeftRev s1 else
      match s1 with
      | EmptyString => s
      | String b s2 =>
          if space2 b c then trimLeftRev s2 else
          match s2 with
          | EmptyString => s
          | String a s3 => if space3 a b c then trimLeftRev s3 else s
          end
      end
  end.

Definition rev (s : string) : string :=
  string_of_list_ascii (List.rev (list_ascii_of_string s)).

(** [strings.TrimSpace(s)]. *)
Definition TrimSpace (s : string) : string :=
  rev (trimLeftRev (rev (trimLeft s))).

(** The pieces of [s] between the occurrences of the byte [sep];
    [cur] holds the piece being read. *)
Fixpoint splitOn (sep : ascii) (cur : string) (s : string) : list string :=
  match s with
  | EmptyString => [cur]
  | String a s' =>
      if Ascii.eqb a sep then cur :: splitOn sep EmptyString s'
      else splitOn sep (cur +:+ String a EmptyString) s'
  end.

(** [%d] of [fmt] on a non-negative [int]. *)
Definition itoa (n : nat) : string := NilEmpty.string_of_uint (Nat.to_uint n).

(** [fmt.Sprintf("%d-%s", i, name)]. *)
Definition Sprintf_d_s (i : nat) (name : string) : string :=
  itoa i +:+ "-" +:+ name.

End GoStrings.

(** ** Paths

    Every path the program handles is [filepath.Join] of the absolute,
    clean path that [filepath.Abs] returns with further elements.  Such a
    path is kept as the list of its components, the root being [[]]. *)

Module GoPath.
Import GoStrings.

Abbreviation path := (list string) (only parsing).

Definition slash : ascii := "/"%char.

(** One component met by [filepath.Clean]: empty components and [.]
    are dropped, [..] removes the component before it (and nothing at
    the root). *)
Definition push (p : path) (c : string) : path :=
  if String.eqb c "" then p
  else if String.eqb c "." then p
  else if String.eqb c ".." then removelast p
  else p ++ [c].

(** [filepath.Join(d, elems...)] for a clean absolute [d]:
    [Clean(d + "/" + e1 + "/" + ...)]. *)
Definition Join (d : path) (elems : list string) : path :=
  fold_left (fun p e => fold_left push (splitOn slash "" e) p) elems d.

(** The text of a path. *)
Definition to_string (p : path) : string :=
  match p with
  | [] => "/"
  | _ => String.concat "" (map (fun c => "/" +:+ c) p)
  end.

Fixpoint dropSlashes (s : string) : string :=
  match s with
  | String a s' => if Ascii.eqb a slash then dropSlashes s' else s
  | EmptyString => s
  end.

Fixpoint untilSlash (s : string) : string :=
  match s with
  | String a s' => if Ascii.eqb a slash then EmptyString else String a (untilSlash s')
  | EmptyString => EmptyString
  end.

(** [filepath.Base(p)]: ["."] for the empty string, the last element
    once trailing slashes are removed, ["/"] when nothing but slashes. *)
Definition Base (p : string) : string :=
  if String.eqb p "" then "." else
  let last := rev (untilSlash (dropSlashes (rev p))) in
  if String.eqb last "" then "/" else last.

End GoPath.

Global Arguments GoPath.Join : simpl never.
Global Arguments GoPath.to_string : simpl never.
Global Arguments GoPath.Base : simpl never.

(** ** Line scanner

    [bufio.NewScanner(fp)] with its default split function
    [bufio.ScanLines] and its default buffer. *)

Module GoBufio.
Import GoStrings.

Definition newline : ascii := "010"%char.
Definition cr : ascii := "013"%char.

(** [bufio.MaxScanTokenSize]: a line that does not fit in the buffer
    stops the scanner with [bufio.ErrTooLong]. *)
Definition MaxScanTokenSize : N := 65536.

(** The text between line feeds; what follows the last line feed is a
    line when it is not empty. *)
Fixpoint rawLines (cur : string) (s : string) : list string :=
  match s with
  | EmptyString => if String.eqb cur "" then [] else [cur]
  | String a s' =>
      if Ascii.eqb a newline then cur :: rawLines "" s'
      else rawLines (cur +:+ String a EmptyString) s'
  end.

(** [dropCR]: one trailing carriage return is removed. *)
Definition dropCR (s : string) : string :=
  match rev s with
  | String c r => if Ascii.eqb c cr then rev r else s
  | EmptyString => s
  end.

Definition tooLong (l : string) : bool :=
  (MaxScanTokenSize <=? N.of_nat (String.length l))%N.

(** The tokens [sc.Text()] of the successive [sc.Scan()] that return
    true, and whether [sc.Err()] is [ErrTooLong] afterwards. *)
Fixpoint scan (raw : list string) : list string * bool :=
  match raw with
  | [] => ([], false)
  | l :: raw' =>
      if tooLong l then ([], true)
      else let '(ts, e) := scan raw' in (dropCR l :: ts, e)
  end.

Definition ScanLines (content : string) : list string * bool :=
  scan (rawLines "" content).

End GoBufio.

(** ** Errors, the world and the monad of the program *)

Inductive error : Type :=
| ENOENT                       (* no such file or directory *)
| EEXIST                       (* file exists *)
| ENOTDIR                      (* not a directory *)
| EISDIR                       (* is a directory *)
| ENOTEMPTY                    (* directory not empty *)
| ELOOP                        (* a symbolic link where the model follows none *)
| ErrTooLong                   (* bufio.Scanner: token too long *)
| ErrGit                       (* git rev-parse --git-dir failed *)
| ErrNotHttp (s : string)      (* '$s' is not url of http *)
| ErrUrlParse (s : string)     (* the error of url.Parse *)
| ErrHttpGet (u : string)      (* the error of http.Get or of reading the body *)
| ErrExit (code : nat)         (* exec.ExitError: the child exited non-zero *)
| ErrStart                     (* the child could not be started *)
| ErrWrongTiming               (* errors.New("wrong timing") *)
| PanicNilHook.                (* method call on a nil Hook *)

Inductive result (A : Type) : Type :=
| Ok (a : A)
| Err (e : error).
Arguments Ok {A} a.
Arguments Err {A} e.

Import GoStrings GoPath GoBufio.

(** A file-system node.  Links are leaves: the model follows none, the
    trees it describes have links only where the program creates them,
    as installed artifacts. *)
Inductive node : Type :=
| Dir
| File (perm : N) (content : string)
| Symlink (target : string).

(** A command started with [exec.Command(name, args...)]. *)
Definition command : Type := path * list string.

Record World : Type := mkWorld {
  fs : gmap path node;       (* the nodes below the root, by absolute path *)
  git_dir : option path;     (* what filepath.Abs of `git rev-parse --git-dir` gives *)
  procs : list command;      (* the children started by cmd.Run(), in order *)
  stdout : list string       (* what fmt.Printf has written *)
}.

Definition set_fs (m : gmap path node) (w : World) : World :=
  mkWorld m (git_dir w) (procs w) (stdout w).

Definition IO (A : Type) : Type := World -> World * result A.

Definition ret {A} (a : A) : IO A := fun w => (w, Ok a).
Definition fail {A} (e : error) : IO A := fun w => (w, Err e).
Definition bind {A B} (m : IO A) (k : A -> IO B) : IO B :=
  fun w => match m w with
           | (w1, Ok a) => k a w1
           | (w1, Err e) => (w1, Err e)
           end.

Notation "'do' x <~ m ;; k" := (bind m (fun x => k))
  (at level 10, x name, m at level 99, k at level 200).
Notation "m ;;; k" := (bind m (fun _ => k))
  (at level 200, k at level 200, right associativity).

(** [for _, x := range l { if err := f(x); err != nil { return err } }] *)
Fixpoint forEach {A} (f : A -> IO unit) (l : list A) : IO unit :=
  match l with
  | [] => ret tt
  | x :: l' => f x ;;; forEach f l'
  end.

(** The same with the index, counted from [i]. *)
Fixpoint forEachFrom {A} (f : nat -> A -> IO unit) (i : nat) (l : list A) : IO unit :=
  match l with
  | [] => ret tt
  | x :: l' => f i x ;;; forEachFrom f (S i) l'
  end.

(** ** The [os] and [filepath] calls on the file system *)

Module OS.

(** The root is a directory; every other path is what the map says. *)
Definition node_at (m : gmap path node) (p : path) : option node :=
  match p with
  | [] => Some Dir
  | _ => m !! p
  end.

Definition parent (p : path) : path := removelast p.

(** [p] is [dir/n]. *)
Definition child_of (dir p : path) : option string :=
  match last p with
  | Some n => if decide (p = dir ++ [n]) then Some n else None
  | None => None
  end.

(** Byte-wise order of strings, the order of [sort.Strings]. *)
Definition str_le (a b : string) : Prop := String.leb a b = true.
Global Instance str_le_dec : RelDecision str_le.
Proof. intros a b. unfold str_le. apply _. Defined.

(** The names in directory [dir], sorted. *)
Definition entries (m : gmap path node) (dir : path) : list string :=
  merge_sort str_le (omap (fun kv => child_of dir (fst kv)) (map_to_list m)).

(** [os.Stat(p)] (no link is followed). *)
Definition Stat (p : path) : IO node :=
  fun w => match node_at (fs w) p with
           | Some n => (w, Ok n)
           | None => (w, Err ENOENT)
           end.

Definition IsNotExist (e : error) : bool :=
  match e with ENOENT => true | _ => false end.

Definition IsDir (n : node) : bool :=
  match n with Dir => true | _ => false end.

(** Directories from the root down: a missing one is created, a node
    that is not a directory stops the walk. *)
Fixpoint mkdirs (pre : path) (rest : list string) (m : gmap path node)
  : gmap path node * option error :=
  match rest with
  | [] => (m, None)
  | c :: rest' =>
      let q := pre ++ [c] in
      match m !! q with
      | Some Dir => mkdirs q rest' m
      | Some _ => (m, Some ENOTDIR)
      | None => mkdirs q rest' (<[q := Dir]> m)
      end
  end.

(** [os.MkdirAll(p, 0755)]. *)
Definition MkdirAll (p : path) : IO unit :=
  fun w => match mkdirs [] p (fs w) with
           | (m, None) => (set_fs m w, Ok tt)
           | (m, Some e) => (set_fs m w, Err e)
           end.

(** [os.Open(p)]: the node that was opened, a file or a directory. *)
Definition Open (p : path) : IO node :=
  fun w => match node_at (fs w) p with
           | None => (w, Err ENOENT)
           | Some (Symlink _) => (w, Err ELOOP)
           | Some n => (w, Ok n)
           end.

(** What a [bufio.Scanner] reads from an open node: reading a
    directory fails. *)
Definition Scanner (fp : node) : list string * option error :=
  match fp with
  | File _ content =>
      let '(ts, long) := ScanLines content in
      (ts, if long then Some ErrTooLong else None)
  | _ => ([], Some EISDIR)
  end.

(** A new node at [p] needs the directory of [p]. *)
Definition create (p : path) (n : node) : IO unit :=
  fun w => match p, node_at (fs w) (parent p) with
           | [], _ => (w, Err EEXIST)
           | _, Some Dir => (set_fs (<[p := n]> (fs w)) w, Ok tt)
           | _, Some _ => (w, Err ENOTDIR)
           | _, None => (w, Err ENOENT)
           end.

(** [os.OpenFile(p, os.O_RDWR|os.O_CREATE|os.O_APPEND, perm)]: the
    file is created empty when absent; the handle is its path. *)
Definition OpenFile_append (p : path) (perm : N) : IO path :=
  fun w => match node_at (fs w) p with
           | Some Dir => (w, Err EISDIR)
           | Some (Symlink _) => (w, Err ELOOP)
           | Some (File _ _) => (w, Ok p)
           | None => (create p (File perm "") ;;; ret p) w
           end.

(** [fp.WriteString(s)] on a handle opened for appending. *)
Definition WriteString (fp : path) (s : string) : IO unit :=
  fun w => match fs w !! fp with
           | Some (File perm content) =>
               (set_fs (<[fp := File perm (content +:+ s)]> (fs w)) w, Ok tt)
           | _ => (w, Err ENOENT)
           end.

(** [ioutil.WriteFile(p, data, perm)]: an existing file is truncated
    and keeps its mode. *)
Definition WriteFile (p : path) (data : string) (perm : N) : IO unit :=
  fun w => match node_at (fs w) p with
           | Some Dir => (w, Err EISDIR)
           | Some (Symlink _) => (w, Err ELOOP)
           | Some (File perm0 _) => (set_fs (<[p := File perm0 data]> (fs w)) w, Ok tt)
           | None => create p (File perm data) w
           end.

(** [os.Symlink(target, p)]. *)
Definition Symlink_ (target : string) (p : path) : IO unit :=
  fun w => if String.eqb target "" then (w, Err ENOENT)
           else match node_at (fs w) p with
                | Some _ => (w, Err EEXIST)
                | None => create p (Symlink target) w
                end.

(** [os.Remove(p)]: a file, a link or an empty directory. *)
Definition Remove (p : path) : IO unit :=
  fun w => match fs w !! p with
           | None => (w, Err ENOENT)
           | Some Dir =>
               match entries (fs w) p with
               | [] => (set_fs (delete p (fs w)) w, Ok tt)
               | _ :: _ => (w, Err ENOTEMPTY)
               end
           | Some _ => (set_fs (delete p (fs w)) w, Ok tt)
           end.

(** [filepath.Glob(pattern)] for the two patterns of the program: a
    directory whose path has no pattern character, followed by [*].
    The matches are the paths of all entries of the directory in
    sorted order; none when the directory cannot be read.  A pattern
    without [*] matches itself when it exists. *)
Definition Glob (pattern : path) : IO (list path) :=
  fun w => match last pattern with
           | Some "*" =>
               let dir := parent pattern in
               (w, Ok (map (fun n => dir ++ [n]) (entries (fs w) dir)))
           | _ =>
               match node_at (fs w) pattern with
               | Some _ => (w, Ok [pattern])
               | None => (w, Ok [])
               end
           end.

(** [fmt.Printf]. *)
Definition Printf (s : string) : IO unit :=
  fun w => (mkWorld (fs w) (git_dir w) (procs w) (stdout w ++ [s]), Ok tt).

(** [os.OpenFile(p, os.O_WRONLY|os.O_CREATE, perm)]: the file is created
    empty when absent and an existing file is not truncated; the handle
    is its path and stands at offset 0. *)
Definition OpenFile_write (p : path) (perm : N) : IO path :=
  fun w => match node_at (fs w) p with
           | Some Dir => (w, Err EISDIR)
           | Some (Symlink _) => (w, Err ELOOP)
           | Some (File _ _) => (w, Ok p)
           | None => (create p (File perm "") ;;; ret p) w
           end.

(** [n] bytes removed from the front. *)
Fixpoint dropBytes (n : nat) (s : string) : string :=
  match n, s with
  | O, _ => s
  | S n', String _ s' => dropBytes n' s'
  | S _, EmptyString => EmptyString
  end.

(** What a file holds once [s] has been written at offset 0: [s], then
    what the file held beyond the length of [s]. *)
Definition overwrite (s old : string) : string :=
  s +:+ dropBytes (String.length s) old.

(** [fp.WriteString(s)] on a handle that stands at offset 0. *)
Definition WriteString_at0 (fp : path) (s : string) : IO unit :=
  fun w => match fs w !! fp with
           | Some (File perm content) =>
               (set_fs (<[fp := File perm (overwrite s content)]> (fs w)) w, Ok tt)
           | _ => (w, Err ENOENT)
           end.

(** [ioutil.ReadFile(p)]. *)
Definition ReadFile (p : path) : IO string :=
  fun w => match node_at (fs w) p with
           | None => (w, Err ENOENT)
           | Some (Symlink _) => (w, Err ELOOP)
           | Some Dir => (w, Err EISDIR)
           | Some (File _ content) => (w, Ok content)
           end.

(** [os.Stdout.Write(b)]. *)
Definition Stdout_Write (b : string) : IO unit :=
  fun w => (mkWorld (fs w) (git_dir w) (procs w) (stdout w ++ [b]), Ok tt).

End OS.

(** ** The program *)

(** [var timings]. *)
Definition timings : list string :=
  [ "applypatch-msg"; "pre-applypatch"; "post-applypatch"; "pre-commit";
    "prepare-commit-msg"; "commit-msg"; "post-commit"; "pre-rebase";
    "post-checkout"; "post-merge"; "pre-receive"; "update"; "post-update";
    "pre-auto-gc"; "post-rewrite" ].

(** [isCorrectTiming]. *)
Definition isCorrectTiming (timing : string) : bool :=
  existsb (fun t => String.eqb t timing) timings.

(** [unshiftTiming], on the arguments of the command. *)
Definition unshiftTiming (args : list string) : result (string * list string) :=
  match args with
  | [] => Err ErrWrongTiming
  | a :: rest => if negb (isCorrectTiming a) then Err ErrWrongTiming else Ok (a, rest)
  end.

(** The environment of the program.

    [net/url]: the parsed URL, [url.Parse] ([None] for its error), the
    method [String] and the field [Path].  [net/http]: the body that
    [http.Get] and [ioutil.ReadAll] give for a URL, [None] when either
    fails.  [child]: what a child process started by [cmd.Run()] does
    to the file system, and the error of [Run] if any. *)
Class Env (URL : Type) : Type := {
  url_Parse : string -> option URL;
  url_String : URL -> string;
  url_Path : URL -> string;
  http_Get : string -> option string;
  child : path -> list string -> gmap path node -> gmap path node * option error
}.

(** The two implementations of the interface [Hook]. *)
Inductive Hook (URL : Type) : Type :=
| UrlHook (url : URL)
| FileHook (path : string).
Arguments UrlHook {URL} url.
Arguments FileHook {URL} path.

(** A value of interface type is [nil] or a hook. *)
Abbreviation HookValue URL := (option (Hook URL)).

Section Program.

Context {URL : Type} `{E : Env URL}.

Definition ParseUrlHook (s : string) : result (Hook URL) :=
  if negb (HasPrefix s "http://" || HasPrefix s "https://") then Err (ErrNotHttp s)
  else match url_Parse s with
       | None => Err (ErrUrlParse s)
       | Some url => Ok (UrlHook url)
       end.

Definition ParseFileHook (s : string) : result (Hook URL) := Ok (FileHook s).

Definition Hook_String (h : Hook URL) : string :=
  match h with
  | UrlHook url => url_String url
  | FileHook path => path
  end.

Definition Hook_Name (h : Hook URL) : string :=
  match h with
  | UrlHook url => Base (url_Path url)
  | FileHook path => Base path
  end.

Definition Hook_Install (h : Hook URL) (path : GoPath.path) : IO unit :=
  match h with
  | UrlHook url =>
      match http_Get (url_String url) with
      | None => fail (ErrHttpGet (url_String url))
      | Some b => OS.WriteFile path b 493 (* 0755 *)
      end
  | FileHook src => OS.Symlink_ src path
  end.

(** A method called on an interface value panics on [nil]. *)
Definition deref (h : HookValue URL) : IO (Hook URL) :=
  match h with
  | Some h' => ret h'
  | None => fail PanicNilHook
  end.

(** The loop of [ParseHookString]: the [err] it assigns is the one
    declared inside the loop, so the function returns [nil, nil] when
    no parser is left. *)
Fixpoint tryParsers (parsers : list (string -> result (Hook URL))) (s : string)
  : HookValue URL * option error :=
  match parsers with
  | [] => (None, None)
  | parse :: rest =>
      match parse s with
      | Err _ => tryParsers rest s
      | Ok h => (Some h, None)
      end
  end.

Definition ParseHookString (s : string) : HookValue URL * option error :=
  tryParsers [ParseUrlHook; ParseFileHook] s.

Definition gitDirPath : IO path :=
  fun w => match git_dir w with
           | Some d => (w, Ok d)
           | None => (w, Err ErrGit)
           end.

Definition directoryExists (p : path) : IO bool :=
  fun w => match OS.Stat p w with
           | (w1, Err e) => if OS.IsNotExist e then (w1, Ok false) else (w1, Err e)
           | (w1, Ok st) => (w1, Ok (OS.IsDir st))
           end.

Definition gitRebaseInProgress : IO bool :=
  do d <~ gitDirPath ;;
  do mergeExists <~ directoryExists (Join d ["rebase-merge"]) ;;
  do rebaseExists <~ directoryExists (Join d ["rebase-apply"]) ;;
  ret (mergeExists || rebaseExists).

(** The first loop of [allHooks]: the trimmed text decides whether a
    line is kept, the text that is kept is [sc.Text()]. *)
Fixpoint keptLines (tokens : list string) (lines : list string) : list string :=
  match tokens with
  | [] => lines
  | text :: rest =>
      let line := TrimSpace text in
      if (0 <? String.length line)%nat then keptLines rest (lines ++ [text])
      else keptLines rest lines
  end.

(** The second loop of [allHooks]. *)
Fixpoint parseLines (lines : list string) (hooks : list (HookValue URL))
  : result (list (HookValue URL)) :=
  match lines with
  | [] => Ok hooks
  | line :: rest =>
      match ParseHookString line with
      | (_, Some e) => Err e
      | (h, None) => parseLines rest (hooks ++ [h])
      end
  end.

Definition allHooks (timing : string) : IO (list (HookValue URL)) :=
  do d <~ gitDirPath ;;
  do fp <~ OS.Open (Join d ["hooks"; timing +:+ ".hooks"]) ;;
  let '(tokens, scErr) := OS.Scanner fp in
  let lines := keptLines tokens [] in
  match scErr with
  | Some e => fail e
  | None =>
      match parseLines lines [] with
      | Ok hooks => ret hooks
      | Err e => fail e
      end
  end.

Definition updateHookScript (timing : string) (i : nat) (h : HookValue URL) : IO unit :=
  do d <~ gitDirPath ;;
  let d := Join d ["hooks"; timing +:+ ".installed"] in
  OS.MkdirAll d ;;;
  do h' <~ deref h ;;
  let path := Join d [Sprintf_d_s i (Hook_Name h')] in
  OS.Printf ("installing " +:+ Hook_Name h' +:+ " as " +:+ to_string path +:+ String newline "") ;;;
  Hook_Install h' path.

Definition updateHooks (timing : string) : IO unit :=
  do hooks <~ allHooks timing ;;
  do d <~ gitDirPath ;;
  let installedDir := Join d ["hooks"; timing +:+ ".installed"] in
  OS.MkdirAll installedDir ;;;
  do matches <~ OS.Glob (installedDir ++ ["*"]) ;;
  forEach OS.Remove matches ;;;
  forEachFrom (updateHookScript timing) 0 hooks.

(** The registry is appended to once [updateHookScript] has returned
    without error.  The error of [allHooks] is overwritten unread, and
    [hooks] is [nil] when there was one. *)
Definition installHook (timing s : string) : IO unit :=
  fun w =>
    match ParseHookString s with
    | (_, Some e) => (w, Err e)
    | (h, None) =>
        let '(w1, r) := allHooks timing w in
        let hooks := match r with Ok hs => hs | Err _ => [] end in
        ( updateHookScript timing (length hooks) h ;;;
          do d <~ gitDirPath ;;
          do fp <~ OS.OpenFile_append (Join d ["hooks"; timing +:+ ".hooks"]) 420 (* 0644 *) ;;
          do h' <~ deref h ;;
          OS.WriteString fp (Hook_String h' +:+ String newline "") ) w1
    end.

(** [cmd := exec.Command(script); cmd.Run()]: the command has the
    arguments given to [exec.Command] and no others. *)
Definition exec_Run (name : path) (args : list string) : IO unit :=
  fun w =>
    let '(m, e) := child name args (fs w) in
    let w1 := mkWorld m (git_dir w) (procs w ++ [(name, args)]) (stdout w) in
    match e with
    | None => (w1, Ok tt)
    | Some err => (w1, Err err)
    end.

Definition runTest (timing : string) (args : list string) : IO unit :=
  do progress <~ gitRebaseInProgress ;;
  if progress : bool then ret tt
  else
    do d <~ gitDirPath ;;
    do matches <~ OS.Glob (Join d ["hooks"; timing +:+ ".installed"; "*"]) ;;
    forEach (fun script => exec_Run script []) matches.


Definition quote : ascii := "034"%char.

(** [fmt.Sprintf(rootHookFormat, t)]: the script planted as the hook of
    timing [t]. *)
Definition rootHook (t : string) : string :=
  "#!/bin/sh" +:+ String newline
    ("git hook test " +:+ t +:+ " "
     +:+ String quote ("$@" +:+ String quote (String newline ""))).

(** A call whose error is not looked at. *)
Definition discard {A} (m : IO A) : IO unit :=
  fun w => (fst (m w), Ok tt).

(** The files are opened without [O_TRUNC] and the result of
    [fp.WriteString] is dropped. *)
Definition createRootHook : IO unit :=
  forEach (fun t =>
    let script := rootHook t in
    do d <~ gitDirPath ;;
    OS.MkdirAll (Join d ["hooks"]) ;;;
    let files := [ (Join d ["hooks"; t], script, 493%N (* 0755 *));
                   (Join d ["hooks"; t +:+ ".hooks"], "", 420%N (* 0644 *)) ] in
    forEach (fun file : path * string * N =>
               let '(path, content, perm) := file in
               do fp <~ OS.OpenFile_write path perm ;;
               discard (OS.WriteString_at0 fp content))
            files)
    timings.

Definition showHookList (timing : string) : IO unit :=
  do d <~ gitDirPath ;;
  do bytes <~ OS.ReadFile (Join d ["hooks"; timing +:+ ".hooks"]) ;;
  OS.Stdout_Write bytes.

(** [whichEditor], on what [os.Getenv] answers (the empty string for a
    variable that is not set). *)
Definition whichEditor (getenv : string -> string) : string :=
  let editor := getenv "EDITOR" in
  if (0 <? String.length editor)%nat then editor
  else
    let editor := getenv "VISUAL" in
    if (0 <? String.length editor)%nat then editor
    else "vi".

End Program.

(** ** A reference environment

    The theorems below hold for every [net/url], [net/http] and child
    process.  To run the program on concrete inputs the variables are
    given values: [GoUrl] follows [net/url] on the strings the program
    passes to it, which begin with [http://] or [https://].  The
    authority is kept as written (user information and host are neither
    checked nor escaped again). *)

Module GoUrl.

Record URL : Type := mkURL {
  Scheme : string;
  Authority : string;
  Path : string;          (* decoded *)
  RawPath : string;       (* as written, when not the default encoding *)
  ForceQuery : bool;
  RawQuery : string;
  Fragment : string;      (* decoded *)
  RawFragment : string
}.

Inductive encoding : Type := encodePath | encodeFragment.

Definition between (lo hi : nat) (c : ascii) : bool :=
  ((lo <=? code c) && (code c <=? hi))%nat.

Definition oneOf (cs : string) (c : ascii) : bool :=
  existsb (Ascii.eqb c) (list_ascii_of_string cs).

Definition isAlnum (c : ascii) : bool :=
  between 97 122 c || between 65 90 c || between 48 57 c.

Definition ishex (c : ascii) : bool :=
  between 48 57 c || between 97 102 c || between 65 70 c.

Definition unhex (c : ascii) : nat :=
  if between 48 57 c then code c - 48
  else if between 97 102 c then code c - 97 + 10
  else code c - 65 + 10.

Definition shouldEscape (c : ascii) (mode : encoding) : bool :=
  if isAlnum c then false
  else if oneOf "-_.~" c then false
  else if oneOf "$&+,/:;=?@" c then
    match mode with
    | encodePath => Ascii.eqb c "?"
    | encodeFragment => false
    end
  else match mode with
       | encodeFragment => negb (oneOf "!()*" c)
       | encodePath => true
       end.

Definition hexDigit (n : nat) : ascii :=
  match String.get n "0123456789ABCDEF" with
  | Some c => c
  | None => "0"
  end.

Fixpoint escape (s : string) (mode : encoding) : string :=
  match s with
  | EmptyString => EmptyString
  | String c s' =>
      if shouldEscape c mode
      then String "%" (String (hexDigit (code c / 16))
                         (String (hexDigit (code c mod 16)) (escape s' mode)))
      else String c (escape s' mode)
  end.

(** [unescape]: [None] for a [%] that two hexadecimal digits do not
    follow. *)
Fixpoint unescape (s : string) : option string :=
  match s with
  | EmptyString => Some EmptyString
  | String c s1 =>
      if Ascii.eqb c "%" then
        match s1 with
        | String h1 (String h2 s3) =>
            if ishex h1 && ishex h2
            then option_map (String (byte (unhex h1 * 16 + unhex h2))) (unescape s3)
            else None
        | _ => None
        end
      else option_map (String c) (unescape s1)
  end.

Definition validEncoded (s : string) (mode : encoding) : bool :=
  forallb (fun c => oneOf "!$&'()*+,;=:@[]%" c || negb (shouldEscape c mode))
          (list_ascii_of_string s).

(** [strings.Cut(s, sep)] for a separator of one byte. *)
Fixpoint cut (sep : ascii) (s : string) : string * option string :=
  match s with
  | EmptyString => (EmptyString, None)
  | String a s' =>
      if Ascii.eqb a sep then (EmptyString, Some s')
      else let '(b, r) := cut sep s' in (String a b, r)
  end.

Definition isCTL (c : ascii) : bool := ((code c <? 32) || (code c =? 127))%nat.

Definition count (c : ascii) (s : string) : nat :=
  List.length (List.filter (Ascii.eqb c) (list_ascii_of_string s)).

Definition afterScheme (rawURL : string) : option (string * string) :=
  if HasPrefix rawURL "http://" then Some ("http", String.substring 5 (String.length rawURL - 5) rawURL)
  else if HasPrefix rawURL "https://" then Some ("https", String.substring 6 (String.length rawURL - 6) rawURL)
  else None.

(** [url.Parse(rawURL)]. *)
Definition Parse (rawURL : string) : option URL :=
  let '(u, frag) := cut "#" rawURL in
  if existsb isCTL (list_ascii_of_string u) then None else
  match afterScheme u with
  | None => None
  | Some (scheme, rest) =>
      let '(rest, force, query) :=
        if HasPrefix (rev rest) "?" && (count "?" rest =? 1)%nat
        then (String.substring 0 (String.length rest - 1) rest, true, "")
        else let '(r, q) := cut "?" rest in (r, false, default "" q) in
      (* rest begins with // *)
      let '(authority, tail) := cut slash (String.substring 2 (String.length rest - 2) rest) in
      let p := match tail with Some t => String slash t | None => "" end in
      match unescape p with
      | None => None
      | Some path =>
          let rawpath := if String.eqb p (escape path encodePath) then "" else p in
          let f := default "" frag in
          match unescape f with
          | None => None
          | Some fragment =>
              let rawfrag := if String.eqb f (escape fragment encodeFragment) then "" else f in
              Some (mkURL scheme authority path rawpath force query fragment rawfrag)
          end
      end
  end.

Definition EscapedPath (u : URL) : string :=
  if negb (String.eqb (RawPath u) "") && validEncoded (RawPath u) encodePath
     && bool_decide (unescape (RawPath u) = Some (Path u))
  then RawPath u
  else if String.eqb (Path u) "*" then "*"
  else escape (Path u) encodePath.

Definition EscapedFragment (u : URL) : string :=
  if negb (String.eqb (RawFragment u) "") && validEncoded (RawFragment u) encodeFragment
     && bool_decide (unescape (RawFragment u) = Some (Fragment u))
  then RawFragment u
  else escape (Fragment u) encodeFragment.

(** [u.String()]. *)
Definition String_ (u : URL) : string :=
  Scheme u +:+ ":"
  +:+ (if negb (String.eqb (Authority u) "") || negb (String.eqb (Path u) "")
       then "//" +:+ Authority u else "")
  +:+ EscapedPath u
  +:+ (if ForceQuery u || negb (String.eqb (RawQuery u) "") then "?" +:+ RawQuery u else "")
  +:+ (if negb (String.eqb (Fragment u) "") then "#" +:+ EscapedFragment u else "").

End GoUrl.


(** The reference environment: [GoUrl]; one URL that answers; children
    that succeed, but for the artifacts named [fail.sh], which exit with
    status 1, and those named [gone.sh], which cannot be started. *)
Definition refChild (name : path) (args : list string) (m : gmap path node)
  : gmap path node * option error :=
  match last name with
  | Some n =>
      if HasPrefix (rev n) (rev "fail.sh") then (m, Some (ErrExit 1))
      else if HasPrefix (rev n) (rev "gone.sh") then (m, Some ErrStart)
      else (m, None)
  | None => (m, Some ErrStart)
  end.

Definition refEnv : Env GoUrl.URL := {|
  url_Parse := GoUrl.Parse;
  url_String := GoUrl.String_;
  url_Path := GoUrl.Path;
  http_Get := fun u => if String.eqb u "https://example.com/fmt.sh"
                       then Some ("#!/bin/sh" +:+ String newline "") else None;
  child := refChild
|}.

(** A repository at [/repo] whose hooks directory exists. *)
Definition gitDir : path := ["repo"; ".git"].

Definition repo (files : list (path * node)) : World :=
  mkWorld (list_to_map ([ (["repo"], Dir); (gitDir, Dir); (gitDir ++ ["hooks"], Dir) ] ++ files))
          (Some gitDir) [] [].

(** Sample worlds. *)

(** A rebase is in progress; artifacts are installed. *)
Definition rebasing : World :=
  repo [ (gitDir ++ ["rebase-merge"], Dir);
         (gitDir ++ ["hooks"; "pre-commit.installed"], Dir);
         (gitDir ++ ["hooks"; "pre-commit.installed"; "0-lint.sh"], Symlink "./scripts/lint.sh") ].


Definition preCommitRegistry : path := gitDir ++ ["hooks"; "pre-commit.hooks"].


(** One registered hook, the line ended by a line feed. *)
Definition oneHook : World :=
  repo [ (preCommitRegistry, File 420 ("./scripts/lint.sh" +:+ String newline "")) ].

(** The same registry after an edit that left no line feed at the end. *)
Definition unterminated : World :=
  repo [ (preCommitRegistry, File 420 "./scripts/lint.sh") ].

(** A registry line written with blanks around the path. *)
Definition padded : World :=
  repo [ (preCommitRegistry, File 420 ("  ./scripts/lint.sh  " +:+ String newline "")) ].

(** Nothing registered: no registry file. *)
Definition unregistered : World := repo [].

(** Not in a repository. *)
Definition outside : World := mkWorld ∅ None [] [].

Definition preCommitInstalled : path := gitDir ++ ["hooks"; "pre-commit.installed"].



(** A hook that the user wrote, longer than the dispatcher script, and
    a registry with one line; modes 0700 and 0600. *)
Definition ownHook : World :=
  repo [ (gitDir ++ ["hooks"; "pre-commit"],
          File 448 ("#!/bin/sh" +:+ String newline
                    ("make lint && make test && make vet" +:+ String newline
                     ("exit 0" +:+ String newline ""))));
         (preCommitRegistry, File 384 ("./scripts/lint.sh" +:+ String newline ""));
         (preCommitInstalled, Dir);
         (preCommitInstalled ++ ["0-lint.sh"], Symlink "./scripts/lint.sh") ].

(** A directory stands where the hook of pre-commit goes. *)
Definition blocked : World := repo [ (gitDir ++ ["hooks"; "pre-commit"], Dir) ].

(** ** The paths of a timing and the notions of the properties *)

Definition registryPath (d : path) (timing : string) : path :=
  d ++ ["hooks"; timing +:+ ".hooks"].

Definition installedDir (d : path) (timing : string) : path :=
  d ++ ["hooks"; timing +:+ ".installed"].

(** The name under which [filepath.Join] puts the artifact of index [i]
    and short name [name] in the directory: [<i>-<name>], and [<i>-]
    for the short name ["/"], whose slash [Join] cleans away. *)
Definition artifactFile (i : nat) (name : string) : string :=
  if String.eqb name "/" then itoa i +:+ "-" else Sprintf_d_s i name.


Definition chars (s : string) : list ascii := list_ascii_of_string s.

(** What the two loops of [allHooks] make of an open node. *)
Definition hooksOf {URL : Type} `{E : Env URL} (fp : node) : result (list (HookValue URL)) :=
  match OS.Scanner fp with
  | (_, Some e) => Err e
  | (tokens, None) => parseLines (keptLines tokens []) []
  end.

Definition isDigit (a : ascii) : Prop := In a (chars "0123456789").

(** A registry text to which a line can be appended: empty, or ended by
    a line feed. *)
Definition terminated (c : string) : Prop :=
  c = "" \/ exists c', c = c' +:+ String newline "".

(** A line that the scanner hands back as it was written: no line feed
    inside, not blank, no carriage return at the end, within the
    buffer. *)
Definition storable (l : string) : Prop :=
  ~ In newline (chars l) /\ TrimSpace l <> "" /\ dropCR l = l /\ tooLong l = false.


(** *** Notions of the further properties *)


(** The path of the artifact of index [i] and descriptor [h]. *)
Definition artifactPath {URL : Type} `{E : Env URL} (d : path) (timing : string)
    (i : nat) (h : Hook URL) : path :=
  installedDir d timing ++ [artifactFile i (Hook_Name h)].

(** Every directory on the way to [dir], and [dir], is there. *)
Definition dirReady (m : gmap path node) (dir : path) : Prop :=
  forall q, q `prefix_of` dir -> q <> [] -> m !! q = Some Dir.

(** The path of the hook that git runs for a timing. *)
Definition stubPath (d : path) (timing : string) : path := d ++ ["hooks"; timing].

(** What [createRootHook] does for one timing and for one file. *)
Definition plantFile (file : path * string * N) : IO unit :=
  let '(path, content, perm) := file in
  do fp <~ OS.OpenFile_write path perm ;;
  discard (OS.WriteString_at0 fp content).

Definition plantTiming {URL : Type} `{E : Env URL} (t : string) : IO unit :=
  do d <~ gitDirPath ;;
  OS.MkdirAll (Join d ["hooks"]) ;;;
  forEach plantFile [ (Join d ["hooks"; t], rootHook t, 493%N);
                      (Join d ["hooks"; t +:+ ".hooks"], "", 420%N) ].

(** The file that [plantFile] leaves where [old] was. *)
Definition planted (content : string) (perm : N) (old : option node) : option node :=
  match old with
  | None => Some (File perm (OS.overwrite content ""))
  | Some (File pm c) => Some (File pm (OS.overwrite content c))
  | Some n => Some n
  end.

(** No symbolic link is there.  The file system does not follow links:
    the properties about what a write leaves elsewhere are stated for
    targets that are not links. *)
Definition notLink (o : option node) : Prop :=
  forall l, o <> Some (Symlink l).

(** A regular file is there. *)
Definition isFile (o : option node) : Prop :=
  match o with Some (File _ _) => True | _ => False end.


(** No timing is the registry name of a timing. *)
Definition timingsApart : bool :=
  forallb (fun t => forallb (fun t' => negb (String.eqb t (t' +:+ ".hooks"))) timings) timings.

(** ** Properties *)

(** *** Byte strings and paths *)

Section StringFacts.

Lemma app_cons a s t : String a s +:+ t = String a (s +:+ t).
Proof. reflexivity. Qed.

Lemma app_nil_l_s s : "" +:+ s = s.
Proof. reflexivity. Qed.

Lemma app_nil_r_s s : s +:+ "" = s.
Proof. induction s as [ | a s IH]; [reflexivity | ]. now rewrite app_cons, IH. Qed.

Lemma app_assoc_s s t u : (s +:+ t) +:+ u = s +:+ (t +:+ u).
Proof. induction s as [ | a s IH]; [reflexivity | ]. now rewrite !app_cons, IH. Qed.

Lemma chars_app s t : chars (s +:+ t) = chars s ++ chars t.
Proof.
  induction s as [ | a s IH]; [reflexivity | ].
  rewrite app_cons. unfold chars in *. simpl. now rewrite IH.
Qed.

Lemma chars_inj s t : chars s = chars t -> s = t.
Proof.
  intros H. rewrite <- (string_of_list_ascii_of_string s), <- (string_of_list_ascii_of_string t).
  unfold chars in H. now rewrite H.
Qed.

Lemma chars_rev s : chars (rev s) = List.rev (chars s).
Proof. unfold rev, chars. apply list_ascii_of_string_of_list_ascii. Qed.

Lemma rev_involutive_s s : rev (rev s) = s.
Proof. apply chars_inj. now rewrite !chars_rev, rev_involutive. Qed.

Lemma splitOn_none sep cur s :
  ~ In sep (chars s) -> splitOn sep cur s = [cur +:+ s].
Proof.
  revert cur. induction s as [ | a s IH]; intros cur H; simpl.
  - now rewrite app_nil_r_s.
  - destruct (Ascii.eqb_spec a sep) as [-> | Hne].
    + exfalso. apply H. now left.
    + rewrite IH, app_assoc_s; [reflexivity | ].
      intros Hin. apply H. now right.
Qed.

Lemma splitOn_sep sep cur s t :
  ~ In sep (chars s) ->
  splitOn sep cur (s +:+ String sep t) = (cur +:+ s) :: splitOn sep "" t.
Proof.
  revert cur. induction s as [ | a s IH]; intros cur H.
  - rewrite app_nil_l_s, app_nil_r_s. simpl. now rewrite Ascii.eqb_refl.
  - rewrite app_cons. simpl.
    destruct (Ascii.eqb_spec a sep) as [-> | Hne].
    + exfalso. apply H. now left.
    + rewrite IH, app_assoc_s; [reflexivity | ].
      intros Hin. apply H. now right.
Qed.

Lemma untilSlash_noSlash s : ~ In slash (chars (untilSlash s)).
Proof.
  induction s as [ | a s IH]; simpl; [tauto | ].
  destruct (Ascii.eqb_spec a slash) as [-> | Hne]; simpl; [tauto | ].
  intros [H | H]; [congruence | now apply IH].
Qed.

(** The short name [filepath.Base] returns has no slash, or is ["/"]. *)
Lemma Base_noSlash p : Base p = "/" \/ ~ In slash (chars (Base p)).
Proof.
  unfold Base. destruct (String.eqb p "").
  - right. simpl. intros [H | []]. discriminate H.
  - destruct (String.eqb _ ""); [now left | right].
    rewrite chars_rev, <- in_rev. apply untilSlash_noSlash.
Qed.

Lemma string_of_uint_digits d : Forall isDigit (chars (NilEmpty.string_of_uint d)).
Proof.
  induction d; simpl; constructor; try assumption; unfold isDigit; simpl; tauto.
Qed.

Lemma to_uint_nonnil n : Nat.to_uint n <> Decimal.Nil.
Proof.
  rewrite <- (DecimalNat.Unsigned.of_to n) at 1.
  rewrite DecimalNat.Unsigned.to_of. unfold Decimal.unorm.
  destruct (Decimal.nzhead (Nat.to_uint n)); discriminate.
Qed.

Lemma itoa_digits i : Forall isDigit (chars (itoa i)).
Proof. apply string_of_uint_digits. Qed.

Lemma itoa_head i : exists a r, itoa i = String a r /\ isDigit a.
Proof.
  pose proof (itoa_digits i) as H. pose proof (to_uint_nonnil i) as Hn.
  unfold itoa in *. destruct (Nat.to_uint i); try congruence;
    simpl in *; inversion H; subst; eauto.
Qed.


Lemma digit_not c a : isDigit a -> ~ isDigit c -> a <> c.
Proof. congruence. Qed.



Lemma not_digit_slash : ~ isDigit slash.
Proof. unfold isDigit. simpl. intuition discriminate. Qed.

Lemma itoa_without c i : ~ isDigit c -> ~ In c (chars (itoa i)).
Proof.
  intros Hc Hin. pose proof (itoa_digits i) as H.
  rewrite Forall_forall in H. apply Hc, H. now apply list_elem_of_In.
Qed.


Lemma push_plain p c a r :
  c = String a r -> isDigit a -> push p c = p ++ [c].
Proof.
  intros -> Ha. unfold push, isDigit in *. simpl in Ha.
  repeat (destruct Ha as [<- | Ha]; [reflexivity | ]). contradiction.
Qed.

(** Where [updateHookScript] puts an artifact. *)
Lemma Join_artifact dir i name :
  name = "/" \/ ~ In slash (chars name) ->
  Join dir [Sprintf_d_s i name] = dir ++ [artifactFile i name].
Proof.
  intros Hb. unfold Join, artifactFile, Sprintf_d_s. simpl.
  destruct (itoa_head i) as (a & r & Hi & Ha).
  destruct (String.eqb_spec name "/") as [-> | Hne].
  - rewrite <- app_assoc_s, splitOn_sep.
    + simpl. rewrite app_nil_l_s.
      match goal with |- push ?q "" = _ => change (push q "") with q end.
      erewrite push_plain; [reflexivity | | exact Ha].
      rewrite Hi. apply app_cons.
    + rewrite chars_app, in_app_iff. intros [H | H].
      * revert H. apply itoa_without, not_digit_slash.
      * simpl in H. destruct H as [H | []]. discriminate H.
  - rewrite splitOn_none.
    + simpl. rewrite app_nil_l_s.
      erewrite push_plain; [reflexivity | | exact Ha].
      rewrite Hi. apply app_cons.
    + rewrite !chars_app, !in_app_iff. intros [H | [H | H]].
      * revert H. apply itoa_without, not_digit_slash.
      * simpl in H. destruct H as [H | []]. discriminate H.
      * destruct Hb as [Hs | Hs]; [congruence | tauto].
Qed.

(** The scanner. *)

Lemma rawLines_app_nl c cur rest :
  rawLines cur ((c +:+ String newline "") +:+ rest)
  = rawLines cur (c +:+ String newline "") ++ rawLines "" rest.
Proof.
  revert cur. induction c as [ | a c IH]; intros cur.
  - reflexivity.
  - rewrite !app_cons. simpl. destruct (Ascii.eqb a newline).
    + simpl. f_equal. apply IH.
    + apply IH.
Qed.

Lemma rawLines_line l cur :
  ~ In newline (chars l) ->
  rawLines cur (l +:+ String newline "") = [cur +:+ l].
Proof.
  revert cur. induction l as [ | a l IH]; intros cur H.
  - rewrite app_nil_l_s, app_nil_r_s. reflexivity.
  - rewrite app_cons. simpl.
    destruct (Ascii.eqb_spec a newline) as [-> | Hne].
    + exfalso. apply H. now left.
    + rewrite IH, app_assoc_s; [reflexivity | ].
      intros Hin. apply H. now right.
Qed.

Lemma scan_app l1 l2 t1 :
  scan l1 = (t1, false) ->
  scan (l1 ++ l2) = (t1 ++ fst (scan l2), snd (scan l2)).
Proof.
  revert t1. induction l1 as [ | l l1 IH]; intros t1; simpl.
  - intros [= <-]. now destruct (scan l2).
  - destruct (tooLong l); [discriminate | ].
    destruct (scan l1) as [ts e] eqn:Hs. intros [= <- ->].
    now rewrite (IH ts eq_refl).
Qed.

End StringFacts.

(** *** The file system *)

Section FileSystemFacts.

Implicit Types (m : gmap path node) (p q dir : path).

Lemma node_at_snoc m p (c : string) : OS.node_at m (p ++ [c]) = m !! (p ++ [c]).
Proof. destruct p; reflexivity. Qed.



(** [MkdirAll] adds directories on the path it is given, where there
    was nothing, and touches nothing else. *)
Lemma mkdirs_frame pre rest m m' e p :
  OS.mkdirs pre rest m = (m', e) ->
  m' !! p = m !! p
  \/ (p `prefix_of` (pre ++ rest) /\ m !! p = None /\ m' !! p = Some Dir).
Proof.
  revert pre m. induction rest as [ | c rest IH]; intros pre m H; simpl in H.
  - inversion H; subst. now left.
  - destruct (m !! (pre ++ [c])) as [[ | | ] | ] eqn:Hq;
      try (inversion H; subst; now left).
    + destruct (IH _ _ H) as [Heq | (Hp & Hn & Hs)]; [now left | right].
      rewrite <- app_assoc in Hp. auto.
    + destruct (IH _ _ H) as [Heq | (Hp & Hn & Hs)].
      * destruct (decide (p = pre ++ [c])) as [-> | Hne].
        -- right. rewrite Heq, lookup_insert_eq. repeat split; [ | assumption].
           exists rest. now rewrite <- app_assoc.
        -- left. now rewrite Heq, lookup_insert_ne.
      * right. rewrite <- app_assoc in Hp. repeat split; try assumption.
        destruct (decide (p = pre ++ [c])) as [-> | Hne].
        -- assumption.
        -- now rewrite lookup_insert_ne in Hn.
Qed.

Lemma MkdirAll_frame dir w w' r p :
  OS.MkdirAll dir w = (w', r) ->
  git_dir w' = git_dir w /\ procs w' = procs w /\ stdout w' = stdout w
  /\ (fs w' !! p = fs w !! p
      \/ (p `prefix_of` dir /\ fs w !! p = None /\ fs w' !! p = Some Dir)).
Proof.
  unfold OS.MkdirAll. destruct (OS.mkdirs [] dir (fs w)) as [m' [e | ]] eqn:Hm;
    intros [= <- <-]; simpl; repeat split; apply (mkdirs_frame _ _ _ _ _ p Hm).
Qed.

Lemma create_snoc q c n w :
  OS.create (q ++ [c]) n w =
    match OS.node_at (fs w) q with
    | Some Dir => (set_fs (<[q ++ [c] := n]> (fs w)) w, Ok tt)
    | Some _ => (w, Err ENOTDIR)
    | None => (w, Err ENOENT)
    end.
Proof.
  unfold OS.create, OS.parent.
  destruct (q ++ [c]) eqn:Hq.
  - symmetry in Hq. now apply app_cons_not_nil in Hq.
  - rewrite <- Hq, removelast_last. reflexivity.
Qed.

(** A successful [WriteFile] or [Symlink] leaves a node at its path; a
    failed one changes nothing; neither touches another path. *)
Lemma WriteFile_frame q c data perm w w' r :
  OS.WriteFile (q ++ [c]) data perm w = (w', r) ->
  git_dir w' = git_dir w /\ procs w' = procs w /\ stdout w' = stdout w
  /\ (forall p, p <> q ++ [c] -> fs w' !! p = fs w !! p)
  /\ match r with
     | Ok _ => is_Some (fs w' !! (q ++ [c]))
     | Err _ => w' = w
     end.
Proof.
  unfold OS.WriteFile. rewrite node_at_snoc.
  destruct (fs w !! (q ++ [c])) as [[ | perm0 old | t] | ] eqn:Hn.
  - intros [= <- <-]. auto.
  - intros [= <- <-]. simpl. repeat split.
    + intros p Hp. now rewrite lookup_insert_ne.
    + rewrite lookup_insert_eq. eauto.
  - intros [= <- <-]. auto.
  - rewrite create_snoc. destruct (OS.node_at (fs w) q) as [[ | | ] | ];
      intros [= <- <-]; simpl; auto.
    repeat split.
    + intros p Hp. now rewrite lookup_insert_ne.
    + rewrite lookup_insert_eq. eauto.
Qed.

Lemma Symlink_frame target q c w w' r :
  OS.Symlink_ target (q ++ [c]) w = (w', r) ->
  git_dir w' = git_dir w /\ procs w' = procs w /\ stdout w' = stdout w
  /\ (forall p, p <> q ++ [c] -> fs w' !! p = fs w !! p)
  /\ match r with
     | Ok _ => fs w !! (q ++ [c]) = None /\ fs w' !! (q ++ [c]) = Some (Symlink target)
     | Err _ => w' = w
     end.
Proof.
  unfold OS.Symlink_. destruct (String.eqb target "").
  - intros [= <- <-]. auto.
  - rewrite node_at_snoc. destruct (fs w !! (q ++ [c])) as [n | ] eqn:Hn.
    + intros [= <- <-]. auto.
    + rewrite create_snoc. destruct (OS.node_at (fs w) q) as [[ | | ] | ];
        intros [= <- <-]; simpl; auto.
      repeat split; try assumption.
      * intros p Hp. now rewrite lookup_insert_ne.
      * now rewrite lookup_insert_eq.
Qed.





Lemma not_prefix_longer dir n : ~ (dir ++ [n]) `prefix_of` dir.
Proof.
  intros [k Hk]. apply (f_equal length) in Hk.
  rewrite !length_app in Hk. simpl in Hk. lia.
Qed.

Lemma suffix_differs timing : timing +:+ ".hooks" <> timing +:+ ".installed".
Proof. intros H. apply (inj (String.app timing)) in H. discriminate H. Qed.

Lemma registry_not_prefix d timing :
  ~ registryPath d timing `prefix_of` installedDir d timing.
Proof.
  unfold registryPath, installedDir. intros [k Hk].
  rewrite <- app_assoc in Hk. apply app_inv_head in Hk.
  inversion Hk as [[Hs Hn]]. symmetry in Hs. now apply suffix_differs in Hs.
Qed.

Lemma registry_not_artifact d timing f :
  registryPath d timing <> installedDir d timing ++ [f].
Proof.
  unfold registryPath, installedDir. intros H. apply (f_equal length) in H.
  rewrite !length_app in H. simpl in H. lia.
Qed.

End FileSystemFacts.

Section Properties.

Context {URL : Type} `{E : Env URL}.

Implicit Types (m : gmap path node) (p q dir d : path) (w : World).

(** *** Helpers: timings and paths *)

Lemma isCorrectTiming_In timing :
  isCorrectTiming timing = true -> In timing timings.
Proof.
  unfold isCorrectTiming. rewrite existsb_exists.
  intros (t & Hin & Heq). apply String.eqb_eq in Heq. now subst.
Qed.

Ltac each_timing H :=
  apply isCorrectTiming_In in H; simpl in H;
  repeat (destruct H as [H | H]; [subst | ]); [ .. | contradiction ].

Lemma Join_registry d timing :
  isCorrectTiming timing = true ->
  Join d ["hooks"; timing +:+ ".hooks"] = registryPath d timing.
Proof.
  intros H. unfold registryPath.
  each_timing H; cbv -[app]; now rewrite <- app_assoc.
Qed.

Lemma Join_installed d timing :
  isCorrectTiming timing = true ->
  Join d ["hooks"; timing +:+ ".installed"] = installedDir d timing.
Proof.
  intros H. unfold installedDir.
  each_timing H; cbv -[app]; now rewrite <- app_assoc.
Qed.


(** *** The resolver *)

Lemma ParseHookString_total s :
  exists h, ParseHookString s = (Some h, None).
Proof.
  unfold ParseHookString. simpl.
  destruct (ParseUrlHook s); eauto.
Qed.

Lemma ParseHookString_cases s h :
  ParseHookString s = (Some h, None) ->
  match h with
  | FileHook p => p = s
  | UrlHook u =>
      (HasPrefix s "http://" || HasPrefix s "https://") = true /\ url_Parse s = Some u
  end.
Proof.
  unfold ParseHookString. simpl. unfold ParseUrlHook.
  destruct (HasPrefix s "http://" || HasPrefix s "https://"); simpl.
  - destruct (url_Parse s) eqn:Hp; intros [= <-]; auto.
  - intros [= <-]. reflexivity.
Qed.

(** C4, amended.  The string form of the descriptor that the resolver
    returns for [s] is [s] itself for a local-path descriptor, which
    every string gets that does not begin with [http://] or [https://]
    or that [url.Parse] rejects; for a remote descriptor it is the
    rendering [u.String()] of the parsed URL, so it is [s] exactly
    when [url.Parse(s).String()] is. *)
Theorem roundtrip_resolver s h :
  ParseHookString s = (Some h, None) ->
  match h with
  | FileHook p => p = s /\ Hook_String h = s
  | UrlHook u =>
      (HasPrefix s "http://" || HasPrefix s "https://") = true
      /\ url_Parse s = Some u
      /\ Hook_String h = url_String u
  end.
Proof.
  intros H. apply ParseHookString_cases in H.
  destruct h as [u | p]; simpl.
  - destruct H. auto.
  - auto.
Qed.

(** C5, amended.  On an input that begins with [http://] or
    [https://], [ParseUrlHook] returns a remote descriptor when
    [url.Parse] accepts the input and the parse error otherwise; the
    resolver [ParseHookString] returns the remote descriptor in the
    first case and, in the second, goes on to the next parser and
    returns the local-path descriptor of the input, without error. *)
Theorem resolver_on_http s :
  (HasPrefix s "http://" || HasPrefix s "https://") = true ->
  match url_Parse s with
  | Some u =>
      ParseUrlHook s = Ok (UrlHook u)
      /\ ParseHookString s = (Some (UrlHook u), None)
  | None =>
      ParseUrlHook s = Err (ErrUrlParse s)
      /\ ParseHookString s = (Some (FileHook s), None)
  end.
Proof.
  intros Hp. unfold ParseHookString. simpl. unfold ParseUrlHook.
  rewrite Hp. simpl. destruct (url_Parse s); auto.
Qed.

(** *** The registry and the installer *)

Lemma gitDirPath_spec w d : git_dir w = Some d -> gitDirPath w = (w, Ok d).
Proof. unfold gitDirPath. now intros ->. Qed.

Lemma allHooks_eq timing w :
  allHooks timing w =
    match git_dir w with
    | None => (w, Err ErrGit)
    | Some d =>
        match OS.node_at (fs w) (Join d ["hooks"; timing +:+ ".hooks"]) with
        | None => (w, Err ENOENT)
        | Some (Symlink _) => (w, Err ELOOP)
        | Some fp => (w, hooksOf fp)
        end
    end.
Proof.
  unfold allHooks, bind, gitDirPath.
  destruct (git_dir w) as [d | ]; [ | reflexivity].
  unfold OS.Open.
  assert (forall fp, (let '(tokens, scErr) := OS.Scanner fp in
                 match scErr with
                 | Some e => fail e
                 | None => match parseLines (keptLines tokens []) [] with
                           | Ok hooks => ret hooks
                           | Err e => fail e
                           end
                 end) w = (w, hooksOf fp)) as Hk.
  { intros fp. unfold hooksOf. destruct (OS.Scanner fp) as [tokens [e | ]].
    - reflexivity.
    - destruct (parseLines _ _); reflexivity. }
  destruct (OS.node_at (fs w) _) as [[ | pm c | t] | ]; try reflexivity; apply Hk.
Qed.

Lemma allHooks_world timing w w' r : allHooks timing w = (w', r) -> w' = w.
Proof.
  rewrite allHooks_eq.
  destruct (git_dir w); [ | now intros [= <- _]].
  destruct (OS.node_at (fs w) _) as [[ | | ] | ]; now intros [= <- _].
Qed.

Lemma Hook_Name_shape h :
  Hook_Name h = "/" \/ ~ In slash (chars (Hook_Name h)).
Proof. destruct h; apply Base_noSlash. Qed.

Lemma Hook_Install_frame h q c w w' r :
  Hook_Install h (q ++ [c]) w = (w', r) ->
  git_dir w' = git_dir w /\ procs w' = procs w /\ stdout w' = stdout w
  /\ (forall p, p <> q ++ [c] -> fs w' !! p = fs w !! p)
  /\ match r with
     | Ok _ => is_Some (fs w' !! (q ++ [c]))
     | Err _ => w' = w
     end.
Proof.
  destruct h as [u | src]; simpl.
  - destruct (http_Get (url_String u)).
    + apply WriteFile_frame.
    + intros [= <- <-]. auto.
  - intros H. apply Symlink_frame in H as (? & ? & ? & ? & Hr).
    split_and!; try assumption. destruct r; [ | assumption].
    destruct Hr as [_ ->]. eauto.
Qed.

(** What one call of [updateHookScript] changes: directories on the
    way to the installed directory, and the artifact. *)
Lemma updateHookScript_frame timing i hv w w' r d :
  isCorrectTiming timing = true ->
  git_dir w = Some d ->
  updateHookScript timing i hv w = (w', r) ->
  git_dir w' = Some d /\ procs w' = procs w
  /\ (forall p,
        fs w' !! p = fs w !! p
        \/ (p `prefix_of` installedDir d timing /\ fs w !! p = None /\ fs w' !! p = Some Dir)
        \/ (exists h, hv = Some h /\ r = Ok tt
                      /\ p = installedDir d timing ++ [artifactFile i (Hook_Name h)]))
  /\ (r = Ok tt ->
      exists h, hv = Some h
                /\ is_Some (fs w' !! (installedDir d timing ++ [artifactFile i (Hook_Name h)]))).
Proof.
  intros Ht Hd. unfold updateHookScript, bind at 1.
  rewrite (gitDirPath_spec w d Hd), (Join_installed d timing Ht).
  unfold bind at 1.
  destruct (OS.MkdirAll (installedDir d timing) w) as [w1 [[] | e]] eqn:Hmk.
  2:{ intros [= <- <-].
      pose proof (fun p => MkdirAll_frame _ _ _ _ p Hmk) as Hf.
      destruct (Hf []) as (Hg & Hp & _ & _).
      split_and!; [congruence | assumption | | discriminate].
      intros p. destruct (Hf p) as (_ & _ & _ & [H | H]); auto. }
  pose proof (fun p => MkdirAll_frame _ _ _ _ p Hmk) as Hf.
  destruct (Hf []) as (Hg & Hp & _ & _).
  unfold bind at 1. destruct hv as [h | ]; simpl.
  2:{ intros [= <- <-]. split_and!; [congruence | assumption | | discriminate].
      intros p. destruct (Hf p) as (_ & _ & _ & [H | H]); auto. }
  rewrite (Join_artifact _ i _ (Hook_Name_shape h)).
  unfold bind at 1, OS.Printf at 1.
  intros Hi. apply Hook_Install_frame in Hi as (Hg' & Hp' & _ & Hother & Hr).
  simpl in *.
  split_and!; [congruence | congruence | | ].
  - intros p.
    destruct (decide (p = installedDir d timing ++ [artifactFile i (Hook_Name h)])) as [-> | Hne].
    + destruct r as [[] | e].
      * right. right. eauto.
      * subst w'. simpl.
        destruct (Hf (installedDir d timing ++ [artifactFile i (Hook_Name h)]))
          as (_ & _ & _ & [H | H]); auto.
    + rewrite (Hother p Hne). destruct (Hf p) as (_ & _ & _ & [H | H]); auto.
  - intros ->. eauto.
Qed.


Lemma node_at_registry (m : gmap path node) d timing :
  OS.node_at m (registryPath d timing) = m !! registryPath d timing.
Proof.
  unfold registryPath.
  change ["hooks"; timing +:+ ".hooks"] with (["hooks"] ++ [timing +:+ ".hooks"]).
  rewrite app_assoc. apply node_at_snoc.
Qed.



(** The append of [installHook]: the file is created when absent, the
    line goes to its end; a failure changes nothing. *)
Lemma append_spec q c perm (h : Hook URL) w w' r :
  let line := Hook_String h +:+ String newline "" in
  (do fp <~ OS.OpenFile_append (q ++ [c]) perm ;;
   do h' <~ deref (Some h) ;;
   OS.WriteString fp (Hook_String h' +:+ String newline "")) w = (w', r) ->
  match r with
  | Ok _ =>
      exists pm old,
        (fs w !! (q ++ [c]) = Some (File pm old)
         \/ (fs w !! (q ++ [c]) = None /\ pm = perm /\ old = ""))
        /\ fs w' = <[q ++ [c] := File pm (old +:+ line)]> (fs w)
        /\ git_dir w' = git_dir w /\ procs w' = procs w
  | Err _ => w' = w
  end.
Proof.
  intros line. unfold bind at 1, OS.OpenFile_append. rewrite node_at_snoc.
  destruct (fs w !! (q ++ [c])) as [[ | pm old | t] | ] eqn:Hn.
  - now intros [= <- <-].
  - unfold bind, deref, ret, OS.WriteString. rewrite Hn.
    intros [= <- <-]. exists pm, old. simpl. auto.
  - now intros [= <- <-].
  - unfold bind at 1. rewrite create_snoc.
    destruct (OS.node_at (fs w) q) as [[ | | ] | ]; try now intros [= <- <-].
    unfold ret, bind, deref, OS.WriteString. simpl. rewrite lookup_insert_eq.
    intros [= <- <-]. exists perm, "". simpl.
    rewrite insert_insert_eq. auto 6.
Qed.

(** C3.  When the install step of [installHook] returns an error,
    [installHook] returns that error at once: the registry file is as
    it was before the call, nothing has been appended to it. *)
Theorem failed_install_keeps_registry timing s w d hv w1 e :
  isCorrectTiming timing = true ->
  git_dir w = Some d ->
  ParseHookString s = (hv, None) ->
  updateHookScript timing
    (length (match snd (allHooks timing w) with Ok hs => hs | Err _ => [] end)) hv w
    = (w1, Err e) ->
  installHook timing s w = (w1, Err e)
  /\ fs w1 !! registryPath d timing = fs w !! registryPath d timing.
Proof.
  intros Ht Hd Hparse Hu. split.
  - unfold installHook. rewrite Hparse.
    destruct (allHooks timing w) as [w0 r] eqn:Hall.
    pose proof (allHooks_world _ _ _ _ Hall) as ->.
    simpl in Hu. unfold bind at 1. now rewrite Hu.
  - destruct (updateHookScript_frame _ _ _ _ _ _ _ Ht Hd Hu) as (_ & _ & Hf & _).
    destruct (Hf (registryPath d timing)) as [HA | [(Hpre & _) | (h & _ & [=] & _)]].
    + assumption.
    + now apply registry_not_prefix in Hpre.
Qed.

(** Every failure of [installHook] leaves the registry file as it
    was. *)
Lemma installHook_error_keeps_registry timing s w d w' e :
  isCorrectTiming timing = true ->
  git_dir w = Some d ->
  installHook timing s w = (w', Err e) ->
  fs w' !! registryPath d timing = fs w !! registryPath d timing.
Proof.
  intros Ht Hd. unfold installHook.
  destruct (ParseHookString_total s) as [h ->].
  destruct (allHooks timing w) as [w0 r] eqn:Hall.
  pose proof (allHooks_world _ _ _ _ Hall) as ->.
  unfold bind at 1.
  destruct (updateHookScript timing _ (Some h) w) as [w1 [[] | e1]] eqn:Hu.
  - destruct (updateHookScript_frame _ _ _ _ _ _ _ Ht Hd Hu) as (Hg & _ & Hf & _).
    unfold bind at 1. rewrite (gitDirPath_spec w1 d Hg), (Join_registry d timing Ht).
    unfold registryPath. change [ "hooks"; timing +:+ ".hooks" ]
      with ([ "hooks" ] ++ [timing +:+ ".hooks"]). rewrite app_assoc.
    intros Ha. apply append_spec in Ha. subst w'.
    rewrite <- app_assoc.
    destruct (Hf (registryPath d timing)) as [HA | [(Hpre & _) | (h' & _ & _ & Heq)]].
    + assumption.
    + now apply registry_not_prefix in Hpre.
    + now apply registry_not_artifact in Heq.
  - intros [= <- <-].
    destruct (updateHookScript_frame _ _ _ _ _ _ _ Ht Hd Hu) as (_ & _ & Hf & _).
    destruct (Hf (registryPath d timing)) as [HA | [(Hpre & _) | (h' & _ & [=] & _)]].
    + assumption.
    + now apply registry_not_prefix in Hpre.
Qed.

Lemma keptLines_acc tokens acc :
  keptLines tokens acc = acc ++ keptLines tokens [].
Proof.
  revert acc. induction tokens as [ | t tokens IH]; intros acc; simpl.
  - now rewrite app_nil_r.
  - destruct (0 <? String.length (TrimSpace t))%nat.
    + rewrite (IH (acc ++ [t])), (IH [t]). now rewrite <- app_assoc.
    + apply IH.
Qed.

Lemma keptLines_app t1 t2 acc :
  keptLines (t1 ++ t2) acc = keptLines t1 acc ++ keptLines t2 [].
Proof.
  revert acc. induction t1 as [ | t t1 IH]; intros acc; simpl.
  - apply keptLines_acc.
  - destruct (0 <? String.length (TrimSpace t))%nat; apply IH.
Qed.

Lemma parseLines_spec lines acc :
  parseLines lines acc = Ok (acc ++ map (fun l => fst (ParseHookString l)) lines).
Proof.
  revert acc. induction lines as [ | l lines IH]; intros acc; simpl.
  - now rewrite app_nil_r.
  - destruct (ParseHookString_total l) as [h ->]. simpl.
    rewrite IH, <- app_assoc. reflexivity.
Qed.

(** What [allHooks] returns for a registry file: the descriptors of
    the lines whose trimmed text is not empty, each parsed from the
    line as the scanner gave it. *)
Lemma allHooks_File timing w d pm c tokens :
  isCorrectTiming timing = true ->
  git_dir w = Some d ->
  fs w !! registryPath d timing = Some (File pm c) ->
  ScanLines c = (tokens, false) ->
  allHooks timing w
  = (w, Ok (map (fun l => fst (ParseHookString l)) (keptLines tokens []))).
Proof.
  intros Ht Hd Hr Hs. rewrite allHooks_eq, Hd, (Join_registry d timing Ht).
  rewrite node_at_registry, Hr. unfold hooksOf, OS.Scanner. rewrite Hs.
  now rewrite parseLines_spec.
Qed.

(** A timing whose registry file is absent: [allHooks] fails. *)
Lemma allHooks_absent timing w d :
  isCorrectTiming timing = true ->
  git_dir w = Some d ->
  fs w !! registryPath d timing = None ->
  allHooks timing w = (w, Err ENOENT).
Proof.
  intros Ht Hd Hr. rewrite allHooks_eq, Hd, (Join_registry d timing Ht).
  now rewrite node_at_registry, Hr.
Qed.

Lemma ScanLines_append old line tokens :
  terminated old ->
  ScanLines old = (tokens, false) ->
  storable line ->
  ScanLines (old +:+ line +:+ String newline "") = (tokens ++ [line], false).
Proof.
  intros Hterm Hscan (Hnl & _ & Hcr & Hlong). unfold ScanLines in *.
  assert (scan [line] = ([line], false)) as Hone.
  { simpl. now rewrite Hlong, Hcr. }
  destruct Hterm as [-> | [c' ->]].
  - simpl in Hscan. inversion Hscan; subst tokens.
    rewrite app_nil_l_s, rawLines_line by assumption. now rewrite app_nil_l_s.
  - rewrite <- (app_nil_l_s (line +:+ String newline "")) at 1.
    rewrite app_nil_l_s.
    rewrite rawLines_app_nl, (scan_app _ _ tokens Hscan).
    rewrite rawLines_line by assumption. rewrite app_nil_l_s, Hone. reflexivity.
Qed.

(** C1, amended.  When [installHook] returns without error, the
    registry file was absent, or empty or ended by a line feed with
    lines the scanner accepts, and the string form [h.String()] of the
    parsed descriptor is a line the scanner hands back unchanged, then
    [allHooks] succeeds afterwards and the last descriptor of its list
    is the one the resolver gives for [h.String()]; when the
    descriptor is a local path, that is the descriptor of [s]. *)
Theorem install_then_readAll timing s w w' d h :
  isCorrectTiming timing = true ->
  git_dir w = Some d ->
  (fs w !! registryPath d timing = None
   \/ exists pm c, fs w !! registryPath d timing = Some (File pm c)
                   /\ terminated c /\ snd (ScanLines c) = false) ->
  ParseHookString s = (Some h, None) ->
  storable (Hook_String h) ->
  installHook timing s w = (w', Ok tt) ->
  exists hooks,
    allHooks timing w' = (w', Ok hooks)
    /\ last hooks = Some (fst (ParseHookString (Hook_String h)))
    /\ (forall src, h = FileHook src -> last hooks = Some (Some (FileHook s))).
Proof.
  intros Ht Hd Hreg Hparse Hline. unfold installHook. rewrite Hparse.
  destruct (allHooks timing w) as [w0 r] eqn:Hall.
  pose proof (allHooks_world _ _ _ _ Hall) as ->.
  unfold bind at 1.
  destruct (updateHookScript timing _ (Some h) w) as [w1 [[] | e1]] eqn:Hu; [ | discriminate].
  destruct (updateHookScript_frame _ _ _ _ _ _ _ Ht Hd Hu) as (Hg & _ & Hf & _).
  assert (fs w1 !! registryPath d timing = fs w !! registryPath d timing) as Hsame.
  { destruct (Hf (registryPath d timing)) as [HA | [(Hpre & _) | (h' & _ & _ & Heq)]].
    - assumption.
    - now apply registry_not_prefix in Hpre.
    - now apply registry_not_artifact in Heq. }
  unfold bind at 1. rewrite (gitDirPath_spec w1 d Hg), (Join_registry d timing Ht).
  intros Ha.
  assert (exists pm old tokens,
             fs w' !! registryPath d timing
             = Some (File pm (old +:+ Hook_String h +:+ String newline ""))
             /\ git_dir w' = Some d
             /\ terminated old /\ ScanLines old = (tokens, false))
    as (pm & old & tokens & Hnew & Hg' & Hterm & Hscan).
  { unfold registryPath in Ha.
    change ["hooks"; timing +:+ ".hooks"] with (["hooks"] ++ [timing +:+ ".hooks"]) in Ha.
    rewrite app_assoc in Ha. apply append_spec in Ha.
    destruct Ha as (pm & old & Hold & Hfs & Hgd & _).
    rewrite <- app_assoc in Hold, Hfs.
    change (d ++ ["hooks"] ++ [timing +:+ ".hooks"]) with (registryPath d timing) in Hold, Hfs.
    rewrite Hsame in Hold.
    assert (terminated old /\ exists tokens, ScanLines old = (tokens, false)) as (Hterm & tokens & Hscan).
    { destruct Hold as [Hold | (_ & _ & ->)].
      - destruct Hreg as [Hreg | (pm' & c & Hreg & Hterm & Hscan)]; [congruence | ].
        assert (c = old) as -> by congruence.
        split; [assumption | ].
        destruct (ScanLines old) as [tokens long]. simpl in Hscan. subst long. eauto.
      - split; [now left | ]. exists []. reflexivity. }
    exists pm, old, tokens. rewrite Hfs, lookup_insert_eq.
    split_and!; try assumption; [reflexivity | congruence]. }
  pose proof (ScanLines_append old (Hook_String h) tokens Hterm Hscan Hline) as Hscan'.
  rewrite (allHooks_File timing w' d pm _ _ Ht Hg' Hnew Hscan').
  eexists. split; [reflexivity | ].
  rewrite keptLines_app. simpl.
  assert ((0 <? String.length (TrimSpace (Hook_String h)))%nat = true) as ->.
  { destruct Hline as (_ & Hblank & _). destruct (TrimSpace (Hook_String h)); [congruence | reflexivity]. }
  rewrite map_app. simpl. rewrite last_snoc. split; [reflexivity | ].
  intros src ->. simpl in *.
  apply ParseHookString_cases in Hparse as Hsrc. subst src. now rewrite Hparse.
Qed.

(** C9.  When [allHooks] fails on the registry, [installHook] goes
    on as with an empty list: it is the install at index 0 followed
    by the append, the error of the read is not returned.  When it
    then succeeds, the artifact is at [<installed>/0-<name>] and a
    registry file that was absent holds the one line. *)
Theorem install_on_unreadable_registry timing s w d e :
  isCorrectTiming timing = true ->
  git_dir w = Some d ->
  snd (allHooks timing w) = Err e ->
  exists h,
    ParseHookString s = (Some h, None)
    /\ installHook timing s w =
         (updateHookScript timing 0 (Some h) ;;;
          do d' <~ gitDirPath ;;
          do fp <~ OS.OpenFile_append (Join d' ["hooks"; timing +:+ ".hooks"]) 420 ;;
          do h' <~ deref (Some h) ;;
          OS.WriteString fp (Hook_String h' +:+ String newline "")) w
    /\ forall w', installHook timing s w = (w', Ok tt) ->
         is_Some (fs w' !! Join (installedDir d timing) [Sprintf_d_s 0 (Hook_Name h)])
         /\ (fs w !! registryPath d timing = None ->
             fs w' !! registryPath d timing
             = Some (File 420 (Hook_String h +:+ String newline ""))).
Proof.
  intros Ht Hd Herr. destruct (ParseHookString_total s) as [h Hparse].
  exists h. split; [assumption | ].
  assert (installHook timing s w =
         (updateHookScript timing 0 (Some h) ;;;
          do d' <~ gitDirPath ;;
          do fp <~ OS.OpenFile_append (Join d' ["hooks"; timing +:+ ".hooks"]) 420 ;;
          do h' <~ deref (Some h) ;;
          OS.WriteString fp (Hook_String h' +:+ String newline "")) w) as Heq.
  { unfold installHook. rewrite Hparse.
    destruct (allHooks timing w) as [w0 r] eqn:Hall.
    pose proof (allHooks_world _ _ _ _ Hall) as ->.
    simpl in Herr. subst r. reflexivity. }
  split; [exact Heq | ].
  intros w'. rewrite Heq. unfold bind at 1.
  destruct (updateHookScript timing 0 (Some h) w) as [w1 [[] | e1]] eqn:Hu; [ | discriminate].
  destruct (updateHookScript_frame _ _ _ _ _ _ _ Ht Hd Hu) as (Hg & _ & Hf & Hs).
  destruct (Hs eq_refl) as (h0 & [= <-] & Hart).
  unfold bind at 1. rewrite (gitDirPath_spec w1 d Hg), (Join_registry d timing Ht).
  unfold registryPath.
  change ["hooks"; timing +:+ ".hooks"] with (["hooks"] ++ [timing +:+ ".hooks"]).
  rewrite app_assoc. intros Ha. apply append_spec in Ha.
  destruct Ha as (pm & old & Hold & Hfs & _).
  rewrite <- app_assoc in Hold, Hfs |- *.
  change (d ++ ["hooks"] ++ [timing +:+ ".hooks"]) with (registryPath d timing) in *.
  rewrite Hfs. split.
  - rewrite (Join_artifact _ 0 _ (Hook_Name_shape h)).
    rewrite lookup_insert_ne; [assumption | apply registry_not_artifact].
  - intros Habs. rewrite lookup_insert_eq.
    assert (fs w1 !! registryPath d timing = None) as Hn1.
    { destruct (Hf (registryPath d timing)) as [HA | [(Hpre & _) | (h' & _ & _ & Heq')]].
      - congruence.
      - now apply registry_not_prefix in Hpre.
      - now apply registry_not_artifact in Heq'. }
    destruct Hold as [Hold | (_ & -> & ->)]; [congruence | ].
    now rewrite app_nil_l_s.
Qed.

(** *** The dispatcher *)

Lemma directoryExists_spec p w :
  directoryExists p w =
    (w, Ok (match OS.node_at (fs w) p with Some Dir => true | _ => false end)).
Proof.
  unfold directoryExists, OS.Stat.
  destruct (OS.node_at (fs w) p) as [[ | | ] | ]; reflexivity.
Qed.

Lemma gitRebaseInProgress_spec w d :
  git_dir w = Some d ->
  gitRebaseInProgress w =
    (w, Ok ((match fs w !! (d ++ ["rebase-merge"]) with Some Dir => true | _ => false end)
            || (match fs w !! (d ++ ["rebase-apply"]) with Some Dir => true | _ => false end))).
Proof.
  intros Hd. unfold gitRebaseInProgress, bind, gitDirPath. rewrite Hd.
  change (Join d ["rebase-merge"]) with (d ++ ["rebase-merge"]).
  change (Join d ["rebase-apply"]) with (d ++ ["rebase-apply"]).
  rewrite !directoryExists_spec, !node_at_snoc. reflexivity.
Qed.





(** C7.  When [rebase-merge] or [rebase-apply] is a directory of the
    git directory, [runTest] returns no error and leaves the world as
    it was: no child has been started, whatever is installed. *)
Theorem rebase_skips_hooks timing args w d :
  git_dir w = Some d ->
  fs w !! (d ++ ["rebase-merge"]) = Some Dir \/ fs w !! (d ++ ["rebase-apply"]) = Some Dir ->
  runTest timing args w = (w, Ok tt)
  /\ procs (fst (runTest timing args w)) = procs w.
Proof.
  intros Hd Hr.
  assert (runTest timing args w = (w, Ok tt)) as Hrun.
  { unfold runTest, bind. rewrite (gitRebaseInProgress_spec w d Hd).
    destruct Hr as [-> | ->]; [reflexivity | ].
    now rewrite orb_true_r. }
  now rewrite Hrun.
Qed.




End Properties.

(** ** Further properties of the program *)

Section Further.

Context {URL : Type} `{E : Env URL}.

Implicit Types (m : gmap path node) (p q dir d : path) (w : World).

Ltac by_timing H :=
  apply isCorrectTiming_In in H; simpl in H;
  repeat (destruct H as [H | H]; [subst | ]); [ .. | contradiction ].

(** *** The resolver and the commands *)

(** X1.  The resolver has no failing input: it returns a descriptor, never
    [nil] and never an error.  The descriptor is the remote one exactly
    when [ParseUrlHook] accepts the string, the local path otherwise. *)
Theorem resolver_always_succeeds s :
  exists h, ParseHookString s = (Some h, None)
            /\ match ParseUrlHook s with
               | Ok h' => h = h'
               | Err _ => h = FileHook s
               end.
Proof.
  unfold ParseHookString. simpl.
  destruct (ParseUrlHook s) as [h | e]; eauto.
Qed.

(** X2.  [unshiftTiming] accepts exactly the argument lists that begin with
    one of the fifteen timings, and hands back that timing and the
    arguments after it. *)
Theorem unshiftTiming_spec args t rest :
  unshiftTiming args = Ok (t, rest) <-> args = t :: rest /\ In t timings.
Proof.
  unfold unshiftTiming. split.
  - destruct args as [ | a args]; [discriminate | ].
    destruct (isCorrectTiming a) eqn:Ha; simpl; [ | discriminate].
    intros [= <- <-]. split; [reflexivity | now apply isCorrectTiming_In].
  - intros [-> Hin].
    assert (isCorrectTiming t = true) as ->; [ | reflexivity].
    unfold isCorrectTiming. apply existsb_exists. exists t.
    split; [assumption | apply String.eqb_refl].
Qed.

(** X3.  [whichEditor] never answers the empty string: [EDITOR] when it is
    set and not empty, else [VISUAL] when it is set and not empty, else
    [vi]. *)
Theorem whichEditor_spec getenv :
  whichEditor getenv <> ""
  /\ (getenv "EDITOR" <> "" -> whichEditor getenv = getenv "EDITOR")
  /\ (getenv "EDITOR" = "" -> getenv "VISUAL" <> "" ->
      whichEditor getenv = getenv "VISUAL")
  /\ (getenv "EDITOR" = "" -> getenv "VISUAL" = "" -> whichEditor getenv = "vi").
Proof.
  unfold whichEditor.
  destruct (getenv "EDITOR") as [ | a e]; destruct (getenv "VISUAL") as [ | b v]; simpl;
    split_and!; intros; congruence.
Qed.

(** X4.  Outside a git repository every operation returns the error of
    [git rev-parse] and leaves the world as it is. *)
Theorem outside_repository timing s args w :
  git_dir w = None ->
  allHooks timing w = (w, Err ErrGit)
  /\ updateHooks timing w = (w, Err ErrGit)
  /\ installHook timing s w = (w, Err ErrGit)
  /\ runTest timing args w = (w, Err ErrGit)
  /\ showHookList timing w = (w, Err ErrGit)
  /\ createRootHook w = (w, Err ErrGit).
Proof.
  intros Hg.
  assert (gitDirPath w = (w, Err ErrGit)) as Hgit
    by (unfold gitDirPath; now rewrite Hg).
  assert (allHooks timing w = (w, Err ErrGit)) as Hall
    by (unfold allHooks, bind; now rewrite Hgit).
  split_and!.
  - exact Hall.
  - unfold updateHooks, bind. now rewrite Hall.
  - unfold installHook. destruct (ParseHookString_total s) as [h ->].
    rewrite Hall. unfold updateHookScript, bind. now rewrite Hgit.
  - unfold runTest, gitRebaseInProgress, bind. now rewrite Hgit.
  - unfold showHookList, bind. now rewrite Hgit.
  - unfold createRootHook, timings. simpl. unfold bind. now rewrite Hgit.
Qed.

(** X5.  [updateHooks] reads the registry first: when that fails, it returns
    the error and nothing has been created or removed. *)
Theorem update_fails_fast timing w e :
  snd (allHooks timing w) = Err e ->
  updateHooks timing w = (w, Err e).
Proof.
  intros He. unfold updateHooks, bind.
  destruct (allHooks timing w) as [w0 r] eqn:Hall.
  pose proof (allHooks_world _ _ _ _ Hall) as ->.
  simpl in He. now subst r.
Qed.

(** X6.  For a timing that has no registry file [showHookList] fails with
    "no such file" and prints nothing. *)
Theorem show_unregistered timing w d :
  isCorrectTiming timing = true ->
  git_dir w = Some d ->
  fs w !! registryPath d timing = None ->
  showHookList timing w = (w, Err ENOENT).
Proof.
  intros Ht Hd Hr. unfold showHookList, bind.
  rewrite (gitDirPath_spec w d Hd), (Join_registry d timing Ht).
  unfold OS.ReadFile. now rewrite node_at_registry, Hr.
Qed.

(** X7.  Whatever string is registered (a path with [../] in it, a URL with
    any path), the artifact of an entry is an entry of the installed
    directory of the timing: its path is the directory followed by one
    name without slash. *)
Theorem artifact_stays_inside timing d i (h : Hook URL) :
  isCorrectTiming timing = true ->
  exists f,
    Join (Join d ["hooks"; timing +:+ ".installed"]) [Sprintf_d_s i (Hook_Name h)]
    = Join d ["hooks"; timing +:+ ".installed"] ++ [f]
    /\ ~ In slash (chars f) /\ f <> "".
Proof.
  intros Ht. rewrite (Join_installed d timing Ht).
  exists (artifactFile i (Hook_Name h)). split_and!.
  - apply Join_artifact, Hook_Name_shape.
  - unfold artifactFile, Sprintf_d_s.
    destruct (String.eqb_spec (Hook_Name h) "/") as [Hs | Hs].
    + rewrite chars_app, in_app_iff. intros [H | H].
      * revert H. apply itoa_without, not_digit_slash.
      * simpl in H. destruct H as [H | []]. discriminate H.
    + rewrite !chars_app, !in_app_iff. intros [H | [H | H]].
      * revert H. apply itoa_without, not_digit_slash.
      * simpl in H. destruct H as [H | []]. discriminate H.
      * destruct (Hook_Name_shape h); [congruence | tauto].
  - destruct (itoa_head i) as (a & r & Hi & _).
    unfold artifactFile, Sprintf_d_s. rewrite Hi.
    destruct (String.eqb (Hook_Name h) "/"); rewrite app_cons; discriminate.
Qed.

(** *** What an install changes *)

Lemma installHook_effect timing s w w' d h :
  isCorrectTiming timing = true ->
  git_dir w = Some d ->
  ParseHookString s = (Some h, None) ->
  installHook timing s w = (w', Ok tt) ->
  let n := length (match snd (allHooks timing w) with Ok hs => hs | Err _ => [] end) in
  git_dir w' = Some d /\ procs w' = procs w
  /\ (exists pm old,
        (fs w !! registryPath d timing = Some (File pm old)
         \/ (fs w !! registryPath d timing = None /\ pm = 420%N /\ old = ""))
        /\ fs w' !! registryPath d timing
           = Some (File pm (old +:+ Hook_String h +:+ String newline "")))
  /\ is_Some (fs w' !! artifactPath d timing n h)
  /\ (forall p, p <> registryPath d timing ->
        fs w' !! p = fs w !! p
        \/ (p `prefix_of` installedDir d timing /\ fs w !! p = None /\ fs w' !! p = Some Dir)
        \/ p = artifactPath d timing n h).
Proof.
  intros Ht Hd Hparse. unfold installHook. rewrite Hparse.
  destruct (allHooks timing w) as [w0 r] eqn:Hall.
  pose proof (allHooks_world _ _ _ _ Hall) as ->. simpl.
  set (n := length (match r with Ok hs => hs | Err _ => [] end)).
  unfold bind at 1.
  destruct (updateHookScript timing n (Some h) w) as [w1 [[] | e1]] eqn:Hu; [ | discriminate].
  destruct (updateHookScript_frame _ _ _ _ _ _ _ Ht Hd Hu) as (Hg & Hp & Hf & Hs).
  destruct (Hs eq_refl) as (h0 & [= <-] & Hart).
  assert (fs w1 !! registryPath d timing = fs w !! registryPath d timing) as Hsame.
  { destruct (Hf (registryPath d timing)) as [HA | [(Hpre & _) | (h' & _ & _ & Heq)]].
    - assumption.
    - now apply registry_not_prefix in Hpre.
    - now apply registry_not_artifact in Heq. }
  unfold bind at 1. rewrite (gitDirPath_spec w1 d Hg), (Join_registry d timing Ht).
  intros Ha. unfold registryPath in Ha.
  change ["hooks"; timing +:+ ".hooks"] with (["hooks"] ++ [timing +:+ ".hooks"]) in Ha.
  rewrite app_assoc in Ha. apply append_spec in Ha.
  destruct Ha as (pm & old & Hold & Hfs & Hgd & Hpp).
  rewrite <- app_assoc in Hold, Hfs.
  change (d ++ ["hooks"] ++ [timing +:+ ".hooks"]) with (registryPath d timing) in Hold, Hfs.
  rewrite Hsame in Hold.
  split_and!.
  - congruence.
  - congruence.
  - exists pm, old. split; [exact Hold | ]. now rewrite Hfs, lookup_insert_eq.
  - unfold artifactPath. rewrite Hfs, lookup_insert_ne;
      [assumption | apply registry_not_artifact].
  - intros p Hne. rewrite Hfs, lookup_insert_ne by congruence.
    destruct (Hf p) as [HA | [HB | (h' & [= <-] & _ & ->)]]; auto.
Qed.

(** X8.  A successful [installHook] appends exactly one line to the
    registry: a registry file keeps what it held and its mode, and ends
    with the string form of the descriptor and a line feed; a registry
    that was absent is created with mode 0644 and holds that line. *)
Theorem install_appends_line timing s w w' d h :
  isCorrectTiming timing = true ->
  git_dir w = Some d ->
  ParseHookString s = (Some h, None) ->
  installHook timing s w = (w', Ok tt) ->
  (fs w !! registryPath d timing = None ->
   fs w' !! registryPath d timing
   = Some (File 420 (Hook_String h +:+ String newline "")))
  /\ (forall pm old,
        fs w !! registryPath d timing = Some (File pm old) ->
        fs w' !! registryPath d timing
        = Some (File pm (old +:+ Hook_String h +:+ String newline ""))).
Proof.
  intros Ht Hd Hparse Hrun.
  destruct (installHook_effect _ _ _ _ _ _ Ht Hd Hparse Hrun)
    as (_ & _ & (pm & old & Hold & Hnew) & _).
  split.
  - intros Hn. destruct Hold as [Hold | (_ & -> & ->)]; [congruence | exact Hnew].
  - intros pm' c Hc. destruct Hold as [Hold | (Hold & _)]; [ | congruence].
    rewrite Hc in Hold. injection Hold as <- <-. exact Hnew.
Qed.

(** X9.  A successful [installHook] starts no child and changes three
    things only: the registry, the new artifact, whose index is the
    number of entries read from the registry before, and the
    directories that were missing on the way to the installed
    directory.  Every other path, the artifacts installed earlier among
    them, is as before.  (The registry and the place of the artifact
    are no symbolic links.) *)
Theorem install_touches_nothing_else timing s w w' d h p :
  isCorrectTiming timing = true ->
  git_dir w = Some d ->
  ParseHookString s = (Some h, None) ->
  installHook timing s w = (w', Ok tt) ->
  notLink (fs w !! registryPath d timing) ->
  notLink (fs w !! artifactPath d timing
             (length (match snd (allHooks timing w) with Ok hs => hs | Err _ => [] end)) h) ->
  p <> registryPath d timing ->
  p <> artifactPath d timing
         (length (match snd (allHooks timing w) with Ok hs => hs | Err _ => [] end)) h ->
  ~ p `prefix_of` installedDir d timing ->
  fs w' !! p = fs w !! p /\ procs w' = procs w.
Proof.
  intros Ht Hd Hparse Hrun _ _ Hreg Hart Hpre.
  destruct (installHook_effect _ _ _ _ _ _ Ht Hd Hparse Hrun) as (_ & Hp & _ & _ & Hf).
  split; [ | assumption].
  destruct (Hf p Hreg) as [HA | [(HB & _) | HC]]; [assumption | tauto | contradiction].
Qed.

(** X10.  After a successful [installHook], [showHookList] prints the
    registry as it was before, followed by the new line, and leaves the
    file system as it is. *)
Theorem show_after_install timing s w w' d h :
  isCorrectTiming timing = true ->
  git_dir w = Some d ->
  ParseHookString s = (Some h, None) ->
  installHook timing s w = (w', Ok tt) ->
  exists old,
    (fs w !! registryPath d timing = None -> old = "")
    /\ (forall pm c, fs w !! registryPath d timing = Some (File pm c) -> old = c)
    /\ showHookList timing w'
       = (mkWorld (fs w') (git_dir w') (procs w')
            (stdout w' ++ [old +:+ Hook_String h +:+ String newline ""]),
          Ok tt).
Proof.
  intros Ht Hd Hparse Hrun.
  destruct (installHook_effect _ _ _ _ _ _ Ht Hd Hparse Hrun)
    as (Hg & _ & (pm & old & Hold & Hnew) & _).
  exists old. split_and!.
  - intros Hn. destruct Hold as [Hold | (_ & _ & ->)]; congruence.
  - intros pm' c Hc. destruct Hold as [Hold | (Hold & _)]; congruence.
  - unfold showHookList, bind.
    rewrite (gitDirPath_spec w' d Hg), (Join_registry d timing Ht).
    unfold OS.ReadFile. rewrite node_at_registry, Hnew. reflexivity.
Qed.

(** X11.  The empty string cannot be installed: [installHook] returns an
    error for it in every world (the link to an empty path is
    refused). *)
Theorem install_empty_string_fails timing w :
  exists e, snd (installHook timing "" w) = Err e.
Proof.
  unfold installHook.
  assert (ParseHookString "" = (Some (FileHook ""), None)) as -> by reflexivity.
  destruct (allHooks timing w) as [w0 r] eqn:Hall.
  pose proof (allHooks_world _ _ _ _ Hall) as ->.
  unfold bind at 1, updateHookScript, bind at 1, gitDirPath.
  destruct (git_dir w) as [d | ]; [ | eauto].
  unfold bind at 1.
  destruct (OS.MkdirAll _ w) as [w1 [[] | e]]; [ | eauto].
  unfold bind, deref, ret, OS.Printf, Hook_Install, OS.Symlink_. simpl. eauto.
Qed.

(** *** A second look at [updateHooks] *)

Lemma set_fs_id w : set_fs (fs w) w = w.
Proof. now destruct w. Qed.

Lemma mkdirs_ready pre rest m :
  (forall q, q `prefix_of` rest -> q <> [] -> m !! (pre ++ q) = Some Dir) ->
  OS.mkdirs pre rest m = (m, None).
Proof.
  revert pre. induction rest as [ | c rest IH]; intros pre H; simpl.
  - reflexivity.
  - rewrite (H [c]); [ | apply prefix_cons, prefix_nil | discriminate].
    apply IH. intros q Hq Hne. rewrite <- app_assoc. simpl.
    apply H; [now apply prefix_cons | discriminate].
Qed.

Lemma mkdirs_made pre rest m m' :
  OS.mkdirs pre rest m = (m', None) ->
  forall q, q `prefix_of` rest -> q <> [] -> m' !! (pre ++ q) = Some Dir.
Proof.
  revert pre m. induction rest as [ | c rest IH]; intros pre m H q Hq Hne.
  - apply prefix_nil_inv in Hq. contradiction.
  - destruct q as [ | c' q]; [contradiction | ].
    assert (c' = c) as -> by (destruct Hq as [k Hk]; now inversion Hk).
    apply prefix_cons_inv_2 in Hq. simpl in H.
    assert (exists m1, OS.mkdirs (pre ++ [c]) rest m1 = (m', None)
                       /\ m1 !! (pre ++ [c]) = Some Dir) as (m1 & Hrec & Hc).
    { destruct (m !! (pre ++ [c])) as [[ | | ] | ] eqn:Hl; try discriminate.
      - eauto.
      - exists (<[pre ++ [c] := Dir]> m). split; [assumption | apply lookup_insert_eq]. }
    destruct q as [ | c2 q].
    + destruct (mkdirs_frame _ _ _ _ _ (pre ++ [c]) Hrec) as [Heq | (_ & Hn & _)]; congruence.
    + change (pre ++ c :: c2 :: q) with (pre ++ [c] ++ c2 :: q). rewrite app_assoc.
      apply (IH _ _ Hrec); [assumption | discriminate].
Qed.

Lemma MkdirAll_ready dir w :
  dirReady (fs w) dir -> OS.MkdirAll dir w = (w, Ok tt).
Proof.
  intros H. unfold OS.MkdirAll. rewrite mkdirs_ready; [now rewrite set_fs_id | ].
  intros q Hq Hne. now apply H.
Qed.

Lemma MkdirAll_made dir w w' :
  OS.MkdirAll dir w = (w', Ok tt) -> dirReady (fs w') dir.
Proof.
  unfold OS.MkdirAll. destruct (OS.mkdirs [] dir (fs w)) as [m' [e | ]] eqn:Hm; [discriminate | ].
  intros [= <-]. intros q Hq Hne. simpl. now apply (mkdirs_made _ _ _ _ Hm q).
Qed.





















(** *** The order of the dispatcher *)












(** *** [createRootHook] *)

Lemma dropBytes_nil n : OS.dropBytes n "" = "".
Proof. now destruct n. Qed.

Lemma dropBytes_app s t : OS.dropBytes (String.length s) (s +:+ t) = t.
Proof.
  induction s as [ | a s IH]; [reflexivity | ].
  change (OS.dropBytes (String.length s) (s +:+ t) = t). exact IH.
Qed.

Lemma overwrite_idem s old : OS.overwrite s (OS.overwrite s old) = OS.overwrite s old.
Proof. unfold OS.overwrite. now rewrite dropBytes_app. Qed.

Lemma overwrite_new s : OS.overwrite s "" = s.
Proof. unfold OS.overwrite. now rewrite dropBytes_nil, app_nil_r_s. Qed.

Lemma overwrite_empty c : OS.overwrite "" c = c.
Proof. reflexivity. Qed.

Lemma planted_idem content perm o :
  planted content perm (planted content perm o) = planted content perm o.
Proof.
  destruct o as [[ | pm c | l] | ]; simpl; try reflexivity; now rewrite overwrite_idem.
Qed.

Lemma stubPath_snoc d t : stubPath d t = (d ++ ["hooks"]) ++ [t].
Proof. unfold stubPath. now rewrite <- app_assoc. Qed.

Lemma registryPath_snoc d t : registryPath d t = (d ++ ["hooks"]) ++ [t +:+ ".hooks"].
Proof. unfold registryPath. now rewrite <- app_assoc. Qed.

Lemma stub_not_registry d t t' :
  isCorrectTiming t = true -> isCorrectTiming t' = true ->
  stubPath d t <> registryPath d t'.
Proof.
  intros Ht Ht' H. rewrite stubPath_snoc, registryPath_snoc in H.
  apply app_inv_head in H. injection H as H.
  assert (timingsApart = true) as Hap by (vm_compute; reflexivity).
  unfold timingsApart in Hap. rewrite forallb_forall in Hap.
  specialize (Hap t (isCorrectTiming_In t Ht)). rewrite forallb_forall in Hap.
  specialize (Hap t' (isCorrectTiming_In t' Ht')).
  apply negb_true_iff, String.eqb_neq in Hap. contradiction.
Qed.

Lemma Join_stub d t :
  isCorrectTiming t = true -> Join d ["hooks"; t] = stubPath d t.
Proof.
  intros H. unfold stubPath.
  by_timing H; cbv -[app]; now rewrite <- app_assoc.
Qed.

Lemma Join_hooks d : Join d ["hooks"] = d ++ ["hooks"].
Proof. cbv -[app]. reflexivity. Qed.

Lemma plantFile_eq q c content perm w :
  OS.node_at (fs w) q = Some Dir ->
  plantFile (q ++ [c], content, perm) w
  = match fs w !! (q ++ [c]) with
    | Some Dir => (w, Err EISDIR)
    | Some (Symlink _) => (w, Err ELOOP)
    | _ => (set_fs (<[q ++ [c] := default Dir (planted content perm (fs w !! (q ++ [c])))]> (fs w)) w,
            Ok tt)
    end.
Proof.
  intros Hq. unfold plantFile, OS.OpenFile_write, bind, discard.
  rewrite node_at_snoc.
  destruct (fs w !! (q ++ [c])) as [[ | pm old | l] | ] eqn:Hl; try reflexivity.
  - unfold OS.WriteString_at0. now rewrite Hl.
  - rewrite create_snoc, Hq. unfold ret, OS.WriteString_at0. simpl.
    rewrite lookup_insert_eq. simpl. unfold set_fs. simpl.
    now rewrite insert_insert_eq.
Qed.

Lemma bind_ret_tt (m : IO unit) w : (m ;;; ret tt) w = m w.
Proof. unfold bind, ret. now destruct (m w) as [w1 [[] | e]]. Qed.

Lemma bind_eq {A B} (m : IO A) (k k' : A -> IO B) w :
  (forall a w1, k a w1 = k' a w1) -> bind m k w = bind m k' w.
Proof. intros H. unfold bind. destruct (m w) as [w1 [a | e]]; [apply H | reflexivity]. Qed.

Lemma plantTiming_eq t w d :
  isCorrectTiming t = true -> git_dir w = Some d ->
  plantTiming t w
  = (OS.MkdirAll (d ++ ["hooks"]) ;;;
     plantFile (stubPath d t, rootHook t, 493%N) ;;;
     plantFile (registryPath d t, "", 420%N)) w.
Proof.
  intros Ht Hd. unfold plantTiming. unfold bind at 1.
  rewrite (gitDirPath_spec w d Hd).
  rewrite Join_hooks, (Join_stub d t Ht), (Join_registry d t Ht).
  apply bind_eq. intros _ w0. simpl forEach.
  apply bind_eq. intros _ w1. apply bind_ret_tt.
Qed.

Lemma hooks_is_dir m d : dirReady m (d ++ ["hooks"]) -> OS.node_at m (d ++ ["hooks"]) = Some Dir.
Proof. intros H. rewrite node_at_snoc. apply H; [reflexivity | now destruct d]. Qed.

Lemma plantFile_ok q c content perm w w' :
  OS.node_at (fs w) q = Some Dir ->
  plantFile (q ++ [c], content, perm) w = (w', Ok tt) ->
  git_dir w' = git_dir w /\ procs w' = procs w /\ stdout w' = stdout w
  /\ fs w' !! (q ++ [c]) = planted content perm (fs w !! (q ++ [c]))
  /\ isFile (fs w' !! (q ++ [c]))
  /\ forall p, p <> q ++ [c] -> fs w' !! p = fs w !! p.
Proof.
  intros Hq. rewrite (plantFile_eq _ _ _ _ _ Hq).
  destruct (fs w !! (q ++ [c])) as [[ | pm old | l] | ] eqn:Hl; try discriminate;
    intros [= <-]; simpl; rewrite lookup_insert_eq; split_and!; try reflexivity;
    intros p Hp; now rewrite lookup_insert_ne.
Qed.

Lemma stub_not_prefix d t : ~ stubPath d t `prefix_of` (d ++ ["hooks"]).
Proof. rewrite stubPath_snoc. apply not_prefix_longer. Qed.

Lemma registry_not_prefix_hooks d t : ~ registryPath d t `prefix_of` (d ++ ["hooks"]).
Proof. rewrite registryPath_snoc. apply not_prefix_longer. Qed.

Lemma stubPath_inj d t t' : stubPath d t = stubPath d t' -> t = t'.
Proof. unfold stubPath. intros H. apply app_inv_head in H. congruence. Qed.

Lemma registryPath_inj d t t' : registryPath d t = registryPath d t' -> t = t'.
Proof.
  unfold registryPath. intros H. apply app_inv_head in H.
  injection H as H. apply (f_equal chars) in H. rewrite !chars_app in H.
  apply app_inv_tail in H. now apply chars_inj.
Qed.

Lemma created_or_same m m' p dir :
  m' !! p = m !! p \/ (p `prefix_of` dir /\ m !! p = None /\ m' !! p = Some Dir) ->
  ~ p `prefix_of` dir -> m' !! p = m !! p.
Proof. intros [H | (H & _)] Hn; [assumption | contradiction]. Qed.

Lemma plantTiming_spec t w w' d :
  isCorrectTiming t = true -> git_dir w = Some d ->
  plantTiming t w = (w', Ok tt) ->
  git_dir w' = Some d /\ procs w' = procs w /\ stdout w' = stdout w
  /\ dirReady (fs w') (d ++ ["hooks"])
  /\ fs w' !! stubPath d t = planted (rootHook t) 493 (fs w !! stubPath d t)
  /\ isFile (fs w' !! stubPath d t)
  /\ fs w' !! registryPath d t = planted "" 420 (fs w !! registryPath d t)
  /\ isFile (fs w' !! registryPath d t)
  /\ forall p, p <> stubPath d t -> p <> registryPath d t ->
       fs w' !! p = fs w !! p
       \/ (p `prefix_of` (d ++ ["hooks"]) /\ fs w !! p = None /\ fs w' !! p = Some Dir).
Proof.
  intros Ht Hd. rewrite (plantTiming_eq t w d Ht Hd). unfold bind.
  destruct (OS.MkdirAll (d ++ ["hooks"]) w) as [w0 [[] | e]] eqn:Hmk; [ | discriminate].
  destruct (plantFile (stubPath d t, rootHook t, 493%N) w0) as [w1 [[] | e]] eqn:H1;
    [ | discriminate].
  intros H2.
  pose proof (MkdirAll_made _ _ _ Hmk) as Hready.
  assert (forall p, git_dir w0 = git_dir w /\ procs w0 = procs w /\ stdout w0 = stdout w
                    /\ (fs w0 !! p = fs w !! p
                        \/ (p `prefix_of` (d ++ ["hooks"]) /\ fs w !! p = None
                            /\ fs w0 !! p = Some Dir))) as Hfr
    by (intros p; apply (MkdirAll_frame _ _ _ _ p Hmk)).
  destruct (Hfr []) as (Hg0 & Hp0 & Hs0 & _).
  assert (stubPath d t <> registryPath d t) as Hsr by now apply stub_not_registry.
  rewrite stubPath_snoc in H1.
  apply plantFile_ok in H1 as (Hg1 & Hp1 & Hs1 & Hst1 & Hf1 & Ho1);
    [ | now apply hooks_is_dir].
  rewrite <- stubPath_snoc in Hst1, Hf1, Ho1.
  assert (dirReady (fs w1) (d ++ ["hooks"])) as Hready1.
  { intros q Hq Hne. rewrite Ho1; [now apply Hready | ].
    intros ->. now apply stub_not_prefix in Hq. }
  rewrite registryPath_snoc in H2.
  apply plantFile_ok in H2 as (Hg2 & Hp2 & Hs2 & Hst2 & Hf2 & Ho2);
    [ | now apply hooks_is_dir].
  rewrite <- registryPath_snoc in Hst2, Hf2, Ho2.
  split_and!.
  - congruence.
  - congruence.
  - congruence.
  - intros q Hq Hne. rewrite Ho2; [now apply Hready1 | ].
    intros ->. now apply registry_not_prefix_hooks in Hq.
  - rewrite Ho2 by assumption. rewrite Hst1. f_equal.
    destruct (Hfr (stubPath d t)) as (_ & _ & _ & Hc).
    apply (created_or_same _ _ _ _ Hc), stub_not_prefix.
  - now rewrite Ho2.
  - rewrite Hst2. f_equal. rewrite Ho1 by (intros H; now symmetry in H).
    destruct (Hfr (registryPath d t)) as (_ & _ & _ & Hc).
    apply (created_or_same _ _ _ _ Hc), registry_not_prefix_hooks.
  - assumption.
  - intros p Hps Hpr. rewrite Ho2, Ho1 by assumption.
    destruct (Hfr p) as (_ & _ & _ & Hc). exact Hc.
Qed.

Lemma plantTiming_fixed t w d :
  isCorrectTiming t = true -> git_dir w = Some d ->
  dirReady (fs w) (d ++ ["hooks"]) ->
  (exists pm c, fs w !! stubPath d t = Some (File pm c) /\ OS.overwrite (rootHook t) c = c) ->
  isFile (fs w !! registryPath d t) ->
  plantTiming t w = (w, Ok tt).
Proof.
  intros Ht Hd Hready (pm & c & Hs & Hfix) Hr.
  rewrite (plantTiming_eq t w d Ht Hd). unfold bind.
  rewrite (MkdirAll_ready _ _ Hready). cbv beta iota.
  rewrite stubPath_snoc in *. rewrite registryPath_snoc in *.
  rewrite (plantFile_eq _ _ _ _ _ (hooks_is_dir _ _ Hready)), Hs.
  cbn [planted default from_option id].
  rewrite Hfix, (insert_id _ _ _ Hs), set_fs_id.
  rewrite (plantFile_eq _ _ _ _ _ (hooks_is_dir _ _ Hready)).
  destruct (fs w !! ((d ++ ["hooks"]) ++ [t +:+ ".hooks"])) as [[ | pm' c' | l] | ] eqn:Hl;
    try contradiction.
  simpl. rewrite overwrite_empty, (insert_id _ _ _ Hl), set_fs_id. reflexivity.
Qed.

Lemma In_isCorrectTiming t : In t timings -> isCorrectTiming t = true.
Proof.
  intros Hin. unfold isCorrectTiming. apply existsb_exists. exists t.
  split; [assumption | apply String.eqb_refl].
Qed.

Lemma plant_loop ts : forall w w' d,
  (forall t, In t ts -> isCorrectTiming t = true) ->
  git_dir w = Some d ->
  forEach plantTiming ts w = (w', Ok tt) ->
  git_dir w' = Some d /\ procs w' = procs w /\ stdout w' = stdout w
  /\ (ts <> [] -> dirReady (fs w') (d ++ ["hooks"]))
  /\ (forall t, In t ts ->
        fs w' !! stubPath d t = planted (rootHook t) 493 (fs w !! stubPath d t)
        /\ isFile (fs w' !! stubPath d t)
        /\ fs w' !! registryPath d t = planted "" 420 (fs w !! registryPath d t)
        /\ isFile (fs w' !! registryPath d t))
  /\ (forall p, (forall t, In t ts -> p <> stubPath d t /\ p <> registryPath d t) ->
        fs w' !! p = fs w !! p
        \/ (p `prefix_of` (d ++ ["hooks"]) /\ fs w !! p = None /\ fs w' !! p = Some Dir)).
Proof.
  induction ts as [ | t0 ts IH]; intros w w' d Hv Hd Hrun.
  - injection Hrun as <-. split_and!; try easy. intros p _. now left.
  - simpl in Hrun. unfold bind in Hrun.
    destruct (plantTiming t0 w) as [w1 [[] | e]] eqn:H0; [ | discriminate].
    assert (isCorrectTiming t0 = true) as Ht0 by (apply Hv; now left).
    apply (plantTiming_spec t0 w w1 d Ht0 Hd) in H0
      as (Hg1 & Hp1 & Hs1 & Hready1 & Hst1 & Hsf1 & Hrg1 & Hrf1 & Hfr1).
    apply (IH w1 w' d) in Hrun as (Hg & Hp & Hs & _ & Hin & Hfr);
      [ | intros t Ht; apply Hv; now right | assumption].
    assert (forall t, ~ In t ts -> isCorrectTiming t = true ->
              fs w' !! stubPath d t = fs w1 !! stubPath d t
              /\ fs w' !! registryPath d t = fs w1 !! registryPath d t) as Hout.
    { intros t Hnin Ht. split.
      - apply (created_or_same _ _ _ (d ++ ["hooks"])); [ | apply stub_not_prefix].
        apply Hfr. intros t' Ht'. split.
        + intros H. apply stubPath_inj in H. now subst.
        + apply stub_not_registry; [assumption | apply Hv; now right].
      - apply (created_or_same _ _ _ (d ++ ["hooks"])); [ | apply registry_not_prefix_hooks].
        apply Hfr. intros t' Ht'. split.
        + intros H. symmetry in H. revert H.
          apply stub_not_registry; [apply Hv; now right | assumption].
        + intros H. apply registryPath_inj in H. now subst. }
    assert (forall t, t <> t0 -> isCorrectTiming t = true ->
              fs w1 !! stubPath d t = fs w !! stubPath d t
              /\ fs w1 !! registryPath d t = fs w !! registryPath d t) as Hother.
    { intros t Hne Ht. split.
      - apply (created_or_same _ _ _ (d ++ ["hooks"])); [ | apply stub_not_prefix].
        apply Hfr1.
        + intros H. now apply stubPath_inj in H.
        + now apply stub_not_registry.
      - apply (created_or_same _ _ _ (d ++ ["hooks"])); [ | apply registry_not_prefix_hooks].
        apply Hfr1.
        + intros H. symmetry in H. revert H. now apply stub_not_registry.
        + intros H. now apply registryPath_inj in H. }
    split_and!.
    + assumption.
    + congruence.
    + congruence.
    + intros _ q Hq Hne.
      destruct (Hfr q) as [Heq | (_ & Hn & _)].
      * intros t Ht. split; intros ->.
        -- now apply stub_not_prefix in Hq.
        -- now apply registry_not_prefix_hooks in Hq.
      * rewrite Heq. now apply Hready1.
      * rewrite (Hready1 q Hq Hne) in Hn. discriminate.
    + intros t Ht.
      assert (isCorrectTiming t = true) as Hvt by now apply Hv.
      destruct (in_dec string_dec t ts) as [Hts | Hts].
      * destruct (Hin t Hts) as (Ha & Hb & Hc & Hd').
        destruct (string_dec t t0) as [-> | Hne].
        -- rewrite Hst1, planted_idem in Ha. rewrite Hrg1, planted_idem in Hc. easy.
        -- destruct (Hother t Hne Hvt) as [Hx Hy]. rewrite Hx in Ha. rewrite Hy in Hc. easy.
      * destruct Ht as [<- | Ht]; [ | contradiction].
        destruct (Hout t0 Hts Hvt) as [Hx Hy]. rewrite Hx, Hy. easy.
    + intros p Hp'.
      assert (forall t, In t ts -> p <> stubPath d t /\ p <> registryPath d t) as Hpts
        by (intros t Ht; apply Hp'; now right).
      destruct (Hp' t0 (or_introl eq_refl)) as [Hps Hpr].
      destruct (Hfr p Hpts) as [Heq | (Hpre & Hn & Hsome)];
        destruct (Hfr1 p Hps Hpr) as [Heq1 | (Hpre1 & Hn1 & Hsome1)].
      * left. congruence.
      * right. rewrite Heq. easy.
      * right. rewrite <- Heq1. easy.
      * congruence.
Qed.

Lemma createRootHook_loop : createRootHook = forEach plantTiming timings.
Proof. reflexivity. Qed.

Lemma createRootHook_ok w w' d :
  git_dir w = Some d ->
  createRootHook w = (w', Ok tt) ->
  git_dir w' = Some d /\ procs w' = procs w /\ stdout w' = stdout w
  /\ dirReady (fs w') (d ++ ["hooks"])
  /\ (forall t, isCorrectTiming t = true ->
        fs w' !! stubPath d t = planted (rootHook t) 493 (fs w !! stubPath d t)
        /\ isFile (fs w' !! stubPath d t)
        /\ fs w' !! registryPath d t = planted "" 420 (fs w !! registryPath d t)
        /\ isFile (fs w' !! registryPath d t))
  /\ (forall p, (forall t, isCorrectTiming t = true ->
                   p <> stubPath d t /\ p <> registryPath d t) ->
        fs w' !! p = fs w !! p
        \/ (p `prefix_of` (d ++ ["hooks"]) /\ fs w !! p = None /\ fs w' !! p = Some Dir)).
Proof.
  intros Hd Hrun. rewrite createRootHook_loop in Hrun.
  apply (plant_loop timings w w' d In_isCorrectTiming Hd) in Hrun
    as (Hg & Hp & Hs & Hready & Hin & Hfr).
  split_and!; try assumption.
  - now apply Hready.
  - intros t Ht. now apply Hin, isCorrectTiming_In.
  - intros p Hp'. apply Hfr. intros t Ht. now apply Hp', In_isCorrectTiming.
Qed.

(** X18.  After a successful [createRootHook], for every timing: where
    there was no hook, the hook is the dispatcher script, with mode
    0755; where there was a regular file, it keeps its mode, begins
    with the script, and still holds the bytes that it held beyond the
    length of the script (the file is opened without [O_TRUNC]). *)
Theorem init_plants_stubs w w' d timing :
  git_dir w = Some d ->
  isCorrectTiming timing = true ->
  createRootHook w = (w', Ok tt) ->
  (fs w !! stubPath d timing = None ->
   fs w' !! stubPath d timing = Some (File 493 (rootHook timing)))
  /\ (forall pm old,
        fs w !! stubPath d timing = Some (File pm old) ->
        fs w' !! stubPath d timing
        = Some (File pm (rootHook timing
                         +:+ OS.dropBytes (String.length (rootHook timing)) old))).
Proof.
  intros Hd Ht Hrun.
  destruct (createRootHook_ok w w' d Hd Hrun) as (_ & _ & _ & _ & Hin & _).
  destruct (Hin timing Ht) as (Hs & _). split.
  - intros Hn. rewrite Hs, Hn. simpl. now rewrite overwrite_new.
  - intros pm old Ho. rewrite Hs, Ho. reflexivity.
Qed.

(** X19.  A successful [createRootHook] keeps every registry file that it
    finds, mode and content, and creates the missing ones empty with
    mode 0644. *)
Theorem init_keeps_registries w w' d timing :
  git_dir w = Some d ->
  isCorrectTiming timing = true ->
  createRootHook w = (w', Ok tt) ->
  (fs w !! registryPath d timing = None ->
   fs w' !! registryPath d timing = Some (File 420 ""))
  /\ (forall pm c,
        fs w !! registryPath d timing = Some (File pm c) ->
        fs w' !! registryPath d timing = Some (File pm c)).
Proof.
  intros Hd Ht Hrun.
  destruct (createRootHook_ok w w' d Hd Hrun) as (_ & _ & _ & _ & Hin & _).
  destruct (Hin timing Ht) as (_ & _ & Hs & _). split.
  - intros Hn. now rewrite Hs, Hn.
  - intros pm c Ho. now rewrite Hs, Ho.
Qed.

(** X20.  [createRootHook] cannot succeed while the hook or the registry of
    some timing is a directory. *)
Theorem init_fails_on_directory w d timing :
  git_dir w = Some d ->
  isCorrectTiming timing = true ->
  fs w !! stubPath d timing = Some Dir \/ fs w !! registryPath d timing = Some Dir ->
  exists e, snd (createRootHook w) = Err e.
Proof.
  intros Hd Ht Hdir.
  destruct (createRootHook w) as [w' [[] | e]] eqn:Hrun; [exfalso | simpl; eauto].
  destruct (createRootHook_ok w w' d Hd Hrun) as (_ & _ & _ & _ & Hin & _).
  destruct (Hin timing Ht) as (Hs & Hf & Hr & Hg).
  destruct Hdir as [H | H].
  - rewrite Hs, H in Hf. exact Hf.
  - rewrite Hr, H in Hg. exact Hg.
Qed.

(** X21.  A successful [createRootHook] writes nothing on standard output,
    starts no child, and changes no path other than the hooks directory
    and the directories above it (created when missing), the fifteen
    hooks and the fifteen registries; the installed artifacts stay.
    (No hook and no registry is a symbolic link.) *)
Theorem init_touches_nothing_else w w' d p :
  git_dir w = Some d ->
  createRootHook w = (w', Ok tt) ->
  (forall t, isCorrectTiming t = true ->
             notLink (fs w !! stubPath d t) /\ notLink (fs w !! registryPath d t)) ->
  ~ p `prefix_of` (d ++ ["hooks"]) ->
  (forall t, isCorrectTiming t = true -> p <> stubPath d t /\ p <> registryPath d t) ->
  fs w' !! p = fs w !! p /\ procs w' = procs w /\ stdout w' = stdout w.
Proof.
  intros Hd Hrun _ Hpre Hp.
  destruct (createRootHook_ok w w' d Hd Hrun) as (_ & Hpr & Hso & _ & _ & Hfr).
  split_and!; try assumption.
  apply (created_or_same _ _ _ (d ++ ["hooks"])); [now apply Hfr | assumption].
Qed.

(** X22.  [createRootHook] is idempotent: after a successful run, a second run
    succeeds and leaves the world as the first run left it. *)
Theorem init_twice_is_init_once w w' :
  createRootHook w = (w', Ok tt) -> createRootHook w' = (w', Ok tt).
Proof.
  intros Hrun.
  destruct (git_dir w) as [d | ] eqn:Hd.
  - destruct (createRootHook_ok w w' d Hd Hrun) as (Hg & _ & _ & Hready & Hin & _).
    rewrite createRootHook_loop.
    assert (forall ts, (forall t, In t ts -> isCorrectTiming t = true) ->
                       forEach plantTiming ts w' = (w', Ok tt)) as Hloop.
    { induction ts as [ | t ts IH]; intros Hv; [reflexivity | ].
      simpl. unfold bind.
      assert (isCorrectTiming t = true) as Ht by (apply Hv; now left).
      rewrite (plantTiming_fixed t w' d Ht Hg Hready).
      - apply IH. intros t' Ht'. apply Hv. now right.
      - destruct (Hin t Ht) as (Hs & Hf & _). rewrite Hs in Hf |- *.
        destruct (fs w !! stubPath d t) as [[ | pm old | l] | ]; simpl in *;
          try contradiction; eexists _, _; (split; [reflexivity | apply overwrite_idem]).
      - now destruct (Hin t Ht) as (_ & _ & _ & Hf). }
    apply Hloop, In_isCorrectTiming.
  - exfalso. revert Hrun. unfold createRootHook, timings. simpl. unfold bind, gitDirPath.
    rewrite Hd. discriminate.
Qed.

(** *** Checks by evaluation *)




End Further.

(** ** The properties on the reference environment *)

Section Reference.

Local Existing Instance refEnv.

Lemma with_result {A B} (x : A * B) (b : B) : snd x = b -> x = (fst x, b).
Proof. destruct x. simpl. now intros ->. Qed.

(** C5: the input begins with [http://] and is rejected by [url.Parse]
    (the escape [%zz] is malformed), yet the resolver returns a
    descriptor, the local path, and no error. *)
Lemma resolver_on_http_counterexample :
  let s := "http://example.com/%zz" in
  (HasPrefix s "http://" || HasPrefix s "https://") = true
  /\ url_Parse s = None
  /\ ParseHookString s = (Some (FileHook s), None).
Proof. vm_compute. repeat split. Qed.

Lemma resolver_on_http_witness :
  let s := "https://example.com/fmt.sh" in
  (HasPrefix s "http://" || HasPrefix s "https://") = true
  /\ match url_Parse s with
     | Some u =>
         ParseUrlHook s = Ok (UrlHook u)
         /\ ParseHookString s = (Some (UrlHook u), None)
     | None =>
         ParseUrlHook s = Err (ErrUrlParse s)
         /\ ParseHookString s = (Some (FileHook s), None)
     end.
Proof.
  intros s. split; [reflexivity | ].
  apply (resolver_on_http s). reflexivity.
Defined.

(** C4: the URL is accepted and its string form is not the input: the
    space of the path comes back escaped. *)
Lemma roundtrip_resolver_counterexample :
  let s := "http://example.com/my hook.sh" in
  exists h, ParseHookString s = (Some h, None)
            /\ Hook_String h = "http://example.com/my%20hook.sh"
            /\ Hook_String h <> s.
Proof.
  intros s.
  destruct (fst (ParseHookString s)) as [h | ] eqn:Hh; [ | vm_compute in Hh; discriminate Hh].
  exists h. vm_compute in Hh. inversion Hh; subst h. vm_compute.
  repeat split. discriminate.
Qed.

Lemma roundtrip_resolver_witness :
  let s := "./scripts/lint.sh" in
  ParseHookString s = (Some (FileHook s), None)
  /\ (s = s /\ Hook_String (FileHook s) = s).
Proof.
  intros s. split; [reflexivity | ].
  apply (roundtrip_resolver s (FileHook s)). reflexivity.
Defined.

(** C6: the scanner hands the line with its blanks, [allHooks] tests
    the trimmed text and keeps the line as it was handed. *)
Lemma allHooks_keeps_padding :
  snd (allHooks "pre-commit" padded) = Ok [Some (FileHook "  ./scripts/lint.sh  ")]
  /\ TrimSpace "  ./scripts/lint.sh  " = "./scripts/lint.sh".
Proof. split; vm_compute; reflexivity. Qed.

(** C1: on a registry that does not end with a line feed the install
    succeeds and the list read afterwards has one entry, which is not
    the string that was installed; and the install of a blank string
    succeeds on a registry the program wrote itself, and the list read
    afterwards ends with the entry that was there before. *)
Lemma install_then_readAll_counterexample :
  let s := "./scripts/test.sh" in
  let w' := fst (installHook "pre-commit" s unterminated) in
  let blank := " " in
  let w'' := fst (installHook "pre-commit" blank oneHook) in
  (snd (installHook "pre-commit" s unterminated) = Ok tt
   /\ snd (allHooks "pre-commit" w')
      = Ok [Some (FileHook "./scripts/lint.sh./scripts/test.sh")]
   /\ Hook_String (FileHook "./scripts/lint.sh./scripts/test.sh") <> s)
  /\ (snd (installHook "pre-commit" blank oneHook) = Ok tt
      /\ snd (allHooks "pre-commit" w'') = Ok [Some (FileHook "./scripts/lint.sh")]
      /\ Hook_String (FileHook "./scripts/lint.sh") <> blank).
Proof. vm_compute. repeat split; discriminate. Qed.

Lemma install_then_readAll_witness :
  let s := "./scripts/test.sh" in
  let w' := fst (installHook "pre-commit" s oneHook) in
  installHook "pre-commit" s oneHook = (w', Ok tt)
  /\ exists hooks,
       allHooks "pre-commit" w' = (w', Ok hooks)
       /\ last hooks = Some (fst (ParseHookString (Hook_String (FileHook s))))
       /\ (forall src, @FileHook GoUrl.URL s = FileHook src ->
                       last hooks = Some (Some (FileHook s))).
Proof.
  intros s w'.
  assert (snd (installHook "pre-commit" s oneHook) = Ok tt) as Hok
    by (vm_compute; reflexivity).
  pose proof (with_result _ _ Hok) as Hrun. fold w' in Hrun.
  split; [exact Hrun | ].
  apply (install_then_readAll "pre-commit" s oneHook w' gitDir (FileHook s)).
  - reflexivity.
  - reflexivity.
  - right. exists 420%N, ("./scripts/lint.sh" +:+ String newline "").
    split; [vm_compute; reflexivity | ]. split.
    + right. exists "./scripts/lint.sh". reflexivity.
    + vm_compute. reflexivity.
  - reflexivity.
  - unfold storable. split_and!.
    + vm_compute. intuition discriminate.
    + vm_compute. discriminate.
    + vm_compute. reflexivity.
    + vm_compute. reflexivity.
  - exact Hrun.
Defined.


Lemma failed_install_keeps_registry_witness :
  let s := "http://example.com/hook.sh" in
  let hv := fst (ParseHookString s) in
  let n := length (match snd (allHooks "pre-commit" oneHook) with Ok hs => hs | Err _ => [] end) in
  let w1 := fst (updateHookScript "pre-commit" n hv oneHook) in
  updateHookScript "pre-commit" n hv oneHook = (w1, Err (ErrHttpGet s))
  /\ installHook "pre-commit" s oneHook = (w1, Err (ErrHttpGet s))
  /\ fs w1 !! registryPath gitDir "pre-commit" = fs oneHook !! registryPath gitDir "pre-commit".
Proof.
  intros s hv n w1.
  assert (snd (updateHookScript "pre-commit" n hv oneHook) = Err (ErrHttpGet s)) as Hok
    by (vm_compute; reflexivity).
  pose proof (with_result _ _ Hok) as Hrun. fold w1 in Hrun.
  split; [exact Hrun | ].
  apply (failed_install_keeps_registry "pre-commit" s oneHook gitDir hv w1 (ErrHttpGet s)).
  - reflexivity.
  - reflexivity.
  - vm_compute. reflexivity.
  - exact Hrun.
Defined.

Lemma install_on_unreadable_registry_witness :
  let s := "./scripts/test.sh" in
  snd (allHooks "pre-commit" unregistered) = Err ENOENT
  /\ snd (installHook "pre-commit" s unregistered) = Ok tt
  /\ exists h,
    ParseHookString s = (Some h, None)
    /\ installHook "pre-commit" s unregistered =
         (updateHookScript "pre-commit" 0 (Some h) ;;;
          do d' <~ gitDirPath ;;
          do fp <~ OS.OpenFile_append (Join d' ["hooks"; "pre-commit" +:+ ".hooks"]) 420 ;;
          do h' <~ deref (Some h) ;;
          OS.WriteString fp (Hook_String h' +:+ String newline "")) unregistered
    /\ forall w', installHook "pre-commit" s unregistered = (w', Ok tt) ->
         is_Some (fs w' !! Join (installedDir gitDir "pre-commit") [Sprintf_d_s 0 (Hook_Name h)])
         /\ (fs unregistered !! registryPath gitDir "pre-commit" = None ->
             fs w' !! registryPath gitDir "pre-commit"
             = Some (File 420 (Hook_String h +:+ String newline ""))).
Proof.
  intros s. split; [vm_compute; reflexivity | ]. split; [vm_compute; reflexivity | ].
  apply (install_on_unreadable_registry "pre-commit" s unregistered gitDir ENOENT).
  - reflexivity.
  - reflexivity.
  - vm_compute. reflexivity.
Defined.

Lemma rebase_skips_hooks_witness :
  fs rebasing !! (gitDir ++ ["rebase-merge"]) = Some Dir
  /\ OS.entries (fs rebasing) (installedDir gitDir "pre-commit") = ["0-lint.sh"]
  /\ runTest "pre-commit" [] rebasing = (rebasing, Ok tt)
  /\ procs (fst (runTest "pre-commit" [] rebasing)) = procs rebasing.
Proof.
  assert (fs rebasing !! (gitDir ++ ["rebase-merge"]) = Some Dir) as Hdir
    by (vm_compute; reflexivity).
  split; [exact Hdir | ]. split; [vm_compute; reflexivity | ].
  apply (rebase_skips_hooks "pre-commit" [] rebasing gitDir).
  - reflexivity.
  - left. exact Hdir.
Defined.


End Reference.

(** ** The further properties on the reference environment *)

Section FurtherReference.

Local Existing Instance refEnv.

Lemma outside_repository_witness :
  git_dir outside = None
  /\ allHooks "pre-commit" outside = (outside, Err ErrGit)
  /\ updateHooks "pre-commit" outside = (outside, Err ErrGit)
  /\ installHook "pre-commit" "./scripts/lint.sh" outside = (outside, Err ErrGit)
  /\ runTest "pre-commit" [] outside = (outside, Err ErrGit)
  /\ showHookList "pre-commit" outside = (outside, Err ErrGit)
  /\ createRootHook outside = (outside, Err ErrGit).
Proof.
  split; [reflexivity | ].
  apply (outside_repository "pre-commit" "./scripts/lint.sh" [] outside). reflexivity.
Defined.

Lemma update_fails_fast_witness :
  snd (allHooks "pre-commit" unregistered) = Err ENOENT
  /\ updateHooks "pre-commit" unregistered = (unregistered, Err ENOENT).
Proof.
  assert (snd (allHooks "pre-commit" unregistered) = Err ENOENT) as H
    by (vm_compute; reflexivity).
  split; [exact H | ].
  apply (update_fails_fast "pre-commit" unregistered ENOENT H).
Defined.

Lemma show_unregistered_witness :
  fs unregistered !! registryPath gitDir "pre-commit" = None
  /\ showHookList "pre-commit" unregistered = (unregistered, Err ENOENT).
Proof.
  assert (fs unregistered !! registryPath gitDir "pre-commit" = None) as H
    by (vm_compute; reflexivity).
  split; [exact H | ].
  apply (show_unregistered "pre-commit" unregistered gitDir); [reflexivity | reflexivity | exact H].
Defined.

Lemma artifact_stays_inside_witness :
  let h : Hook GoUrl.URL := FileHook "./scripts/lint.sh" in
  exists f,
    Join (Join gitDir ["hooks"; "pre-commit" +:+ ".installed"]) [Sprintf_d_s 10 (Hook_Name h)]
    = Join gitDir ["hooks"; "pre-commit" +:+ ".installed"] ++ [f]
    /\ ~ In slash (chars f) /\ f <> "".
Proof.
  intros h. apply (artifact_stays_inside "pre-commit" gitDir 10 h). reflexivity.
Defined.

Lemma install_appends_line_witness :
  let s := "./scripts/test.sh" in
  let w' := fst (installHook "pre-commit" s oneHook) in
  let old := "./scripts/lint.sh" +:+ String newline "" in
  installHook "pre-commit" s oneHook = (w', Ok tt)
  /\ fs oneHook !! registryPath gitDir "pre-commit" = Some (File 420 old)
  /\ fs w' !! registryPath gitDir "pre-commit"
     = Some (File 420 (old +:+ Hook_String (FileHook s) +:+ String newline "")).
Proof.
  intros s w' old.
  assert (snd (installHook "pre-commit" s oneHook) = Ok tt) as Hok
    by (vm_compute; reflexivity).
  pose proof (with_result _ _ Hok) as Hrun. fold w' in Hrun.
  assert (fs oneHook !! registryPath gitDir "pre-commit" = Some (File 420 old)) as Hold
    by (vm_compute; reflexivity).
  split; [exact Hrun | ]. split; [exact Hold | ].
  apply (install_appends_line "pre-commit" s oneHook w' gitDir (FileHook s));
    [reflexivity | reflexivity | reflexivity | exact Hrun | exact Hold].
Defined.

Lemma install_touches_nothing_else_witness :
  let s := "./scripts/test.sh" in
  let w' := fst (installHook "pre-commit" s oneHook) in
  let p := gitDir ++ ["hooks"; "pre-push.hooks"] in
  installHook "pre-commit" s oneHook = (w', Ok tt)
  /\ fs w' !! p = fs oneHook !! p /\ procs w' = procs oneHook.
Proof.
  intros s w' p.
  assert (snd (installHook "pre-commit" s oneHook) = Ok tt) as Hok
    by (vm_compute; reflexivity).
  pose proof (with_result _ _ Hok) as Hrun. fold w' in Hrun.
  split; [exact Hrun | ].
  apply (install_touches_nothing_else "pre-commit" s oneHook w' gitDir (FileHook s) p).
  - reflexivity.
  - reflexivity.
  - reflexivity.
  - exact Hrun.
  - intros l. vm_compute. discriminate.
  - intros l. vm_compute. discriminate.
  - vm_compute. discriminate.
  - vm_compute. discriminate.
  - intros [k Hk]. vm_compute in Hk. discriminate Hk.
Defined.

Lemma show_after_install_witness :
  let s := "./scripts/test.sh" in
  let w' := fst (installHook "pre-commit" s oneHook) in
  installHook "pre-commit" s oneHook = (w', Ok tt)
  /\ exists old,
       (fs oneHook !! registryPath gitDir "pre-commit" = None -> old = "")
       /\ (forall pm c, fs oneHook !! registryPath gitDir "pre-commit" = Some (File pm c) ->
                        old = c)
       /\ showHookList "pre-commit" w'
          = (mkWorld (fs w') (git_dir w') (procs w')
               (stdout w' ++ [old +:+ Hook_String (FileHook s) +:+ String newline ""]),
             Ok tt).
Proof.
  intros s w'.
  assert (snd (installHook "pre-commit" s oneHook) = Ok tt) as Hok
    by (vm_compute; reflexivity).
  pose proof (with_result _ _ Hok) as Hrun. fold w' in Hrun.
  split; [exact Hrun | ].
  apply (show_after_install "pre-commit" s oneHook w' gitDir (FileHook s));
    [reflexivity | reflexivity | reflexivity | exact Hrun].
Defined.







Lemma init_plants_stubs_witness :
  let w' := fst (createRootHook ownHook) in
  let t := "pre-commit" in
  let old := "#!/bin/sh" +:+ String newline
               ("make lint && make test && make vet" +:+ String newline
                ("exit 0" +:+ String newline "")) in
  createRootHook ownHook = (w', Ok tt)
  /\ fs ownHook !! stubPath gitDir t = Some (File 448 old)
  /\ fs w' !! stubPath gitDir t
     = Some (File 448 (rootHook t +:+ OS.dropBytes (String.length (rootHook t)) old))
  /\ OS.dropBytes (String.length (rootHook t)) old
     = " vet" +:+ String newline ("exit 0" +:+ String newline "").
Proof.
  intros w' t old.
  assert (snd (createRootHook ownHook) = Ok tt) as Hok by (vm_compute; reflexivity).
  pose proof (with_result _ _ Hok) as Hrun. fold w' in Hrun.
  assert (fs ownHook !! stubPath gitDir t = Some (File 448 old)) as Hold
    by (vm_compute; reflexivity).
  split; [exact Hrun | ]. split; [exact Hold | ]. split; [ | vm_compute; reflexivity].
  apply (init_plants_stubs ownHook w' gitDir t); [reflexivity | reflexivity | exact Hrun | exact Hold].
Defined.

Lemma init_keeps_registries_witness :
  let w' := fst (createRootHook ownHook) in
  let t := "pre-commit" in
  let c := "./scripts/lint.sh" +:+ String newline "" in
  createRootHook ownHook = (w', Ok tt)
  /\ fs ownHook !! registryPath gitDir t = Some (File 384 c)
  /\ fs w' !! registryPath gitDir t = Some (File 384 c).
Proof.
  intros w' t c.
  assert (snd (createRootHook ownHook) = Ok tt) as Hok by (vm_compute; reflexivity).
  pose proof (with_result _ _ Hok) as Hrun. fold w' in Hrun.
  assert (fs ownHook !! registryPath gitDir t = Some (File 384 c)) as Hold
    by (vm_compute; reflexivity).
  split; [exact Hrun | ]. split; [exact Hold | ].
  apply (init_keeps_registries ownHook w' gitDir t); [reflexivity | reflexivity | exact Hrun | exact Hold].
Defined.

Lemma init_fails_on_directory_witness :
  fs blocked !! stubPath gitDir "pre-commit" = Some Dir
  /\ exists e, snd (createRootHook blocked) = Err e.
Proof.
  assert (fs blocked !! stubPath gitDir "pre-commit" = Some Dir) as H
    by (vm_compute; reflexivity).
  split; [exact H | ].
  apply (init_fails_on_directory blocked gitDir "pre-commit"); [reflexivity | reflexivity | ].
  left. exact H.
Defined.

Lemma init_touches_nothing_else_witness :
  let w' := fst (createRootHook ownHook) in
  let p := installedDir gitDir "pre-commit" ++ ["0-lint.sh"] in
  createRootHook ownHook = (w', Ok tt)
  /\ fs w' !! p = fs ownHook !! p /\ procs w' = procs ownHook /\ stdout w' = stdout ownHook.
Proof.
  intros w' p.
  assert (snd (createRootHook ownHook) = Ok tt) as Hok by (vm_compute; reflexivity).
  pose proof (with_result _ _ Hok) as Hrun. fold w' in Hrun.
  split; [exact Hrun | ].
  apply (init_touches_nothing_else ownHook w' gitDir p).
  - reflexivity.
  - exact Hrun.
  - intros t Ht. apply isCorrectTiming_In in Ht. simpl in Ht.
    repeat (destruct Ht as [<- | Ht]; [split; intros l; vm_compute; discriminate | ]).
    contradiction.
  - intros [k Hk]. apply (f_equal length) in Hk. rewrite length_app in Hk.
    vm_compute in Hk. lia.
  - intros t _. split; intros H; apply (f_equal length) in H; vm_compute in H; discriminate H.
Defined.

Lemma init_twice_is_init_once_witness :
  let w' := fst (createRootHook unregistered) in
  createRootHook unregistered = (w', Ok tt) /\ createRootHook w' = (w', Ok tt).
Proof.
  intros w'.
  assert (snd (createRootHook unregistered) = Ok tt) as Hok by (vm_compute; reflexivity).
  pose proof (with_result _ _ Hok) as Hrun. fold w' in Hrun.
  split; [exact Hrun | ].
  apply (init_twice_is_init_once unregistered w' Hrun).
Defined.

End FurtherReference.
